(** * Collateral-type hooks and the PerpsMarketProxy import map

    A shallow embedding of the two TypeScript sources of the oracle-manager
    UI: the collateral-type data-access hooks ([loadSymbols], [loadPrices],
    [loadCollateralTypes], [useCollateralTypes], [useCollateralType]) and the
    generated import map [importPerpsMarketProxy].

    Conventions of the embedding.
    - A rejected promise or a thrown exception is [Err e]; a resolved promise
      or a normal return is [Ok v].
    - A JavaScript string is a [string]. The built-in
      [String.prototype.toLowerCase] is a parameter of the selector, so
      what is proved of it holds for the Unicode-aware function of the
      language.
    - [undefined] read from an array out of range is [None].
    - An ethers [BigNumber] is an integer of [Z]. *)

From Stdlib Require Import ZArith QArith Ascii.
From stdpp Require Import base option list strings gmap pretty.

Local Open Scope string_scope.
Local Open Scope Z_scope.

(** ** JavaScript values, exceptions and promises *)

Module Js.

Inductive JsError : Type :=
| ZodError
| CallException (reason : string)
| Error (message : string).

Inductive result (A : Type) : Type :=
| Ok (value : A)
| Err (error : JsError).
Arguments Ok {A} value.
Arguments Err {A} error.

Definition is_Ok {A} (r : result A) : Prop := ∃ v, r = Ok v.
Definition is_Err {A} (r : result A) : Prop := ∃ e, r = Err e.

#[global] Instance result_ret : MRet result := λ A x, Ok x.
#[global] Instance result_bind : MBind result := λ A B f m,
  match m with
  | Ok x => f x
  | Err e => Err e
  end.

(** [Promise.all([a, b])]: both promises are started; the result is
    rejected as soon as one of them is. When both reject, the source
    reports whichever rejects first; the model reports the left one. *)
Definition Promise_all2 {A B} (a : result A) (b : result B) : result (A * B) :=
  match a, b with
  | Ok x, Ok y => Ok (x, y)
  | Err e, _ => Err e
  | Ok _, Err e => Err e
  end.

Inductive JsValue : Type :=
| JsUndefined
| JsNull
| JsBoolean (b : bool)
| JsNumber (n : Z)
| JsString (s : string)
| JsBigNumber (v : Z).

(** A plain object: own enumerable properties by key. *)
Abbreviation JsObject := (gmap string JsValue).

(** Property read [o.k]: a missing key reads as [undefined]. *)
Definition get (o : JsObject) (k : string) : JsValue :=
  default JsUndefined (o !! k).

(** [arr[0]] on a decoded result array. *)
Definition at0 (arr : list JsValue) : JsValue :=
  default JsUndefined (arr !! 0%nat).

(** Template-literal conversion [`${s}`] of an optional string. *)
Definition template (s : option string) : string :=
  match s with
  | Some s => s
  | None => "undefined"
  end.

(** Truthiness of an optional string: [undefined] and [''] are falsy. *)
Definition truthy (s : option string) : bool :=
  match s with
  | None => false
  | Some s => negb (String.eqb s "")
  end.

(** Lower-casing of the letters A-Z, every other character kept. On
    strings of ASCII characters this is what [String.prototype.toLowerCase]
    computes; it is used to run the selector on ASCII symbols. *)
Definition lower_ascii (c : ascii) : ascii :=
  let n := Ascii.N_of_ascii c in
  if ((65 <=? n) && (n <=? 90))%N then Ascii.ascii_of_N (n + 32) else c.

Fixpoint asciiLowerCase (s : string) : string :=
  match s with
  | EmptyString => EmptyString
  | String c s' => String (lower_ascii c) (asciiLowerCase s')
  end.

(** [String.prototype.startsWith]. *)
Fixpoint startsWith (s pre : string) : bool :=
  match pre, s with
  | EmptyString, _ => true
  | String _ _, EmptyString => false
  | String a pre', String b s' => Ascii.eqb a b && startsWith s' pre'
  end.

(** [Array.prototype.map] with the element index passed to the callback. *)
Fixpoint map_index_from {A B} (f : A → nat → B) (i : nat) (l : list A) : list B :=
  match l with
  | [] => []
  | x :: l' => f x i :: map_index_from f (S i) l'
  end.
Definition map_index {A B} (f : A → nat → B) (l : list A) : list B :=
  map_index_from f 0 l.

(** [Array.prototype.map] with a callback that may throw: the first
    exception aborts the whole map. *)
Fixpoint map_throwing {A B} (f : A → result B) (l : list A) : result (list B) :=
  match l with
  | [] => Ok []
  | x :: l' => y ← f x; ys ← map_throwing f l'; mret (y :: ys)
  end.

(** Decimal digits, the characters a non-negative number prints as. *)
Definition is_digit (c : ascii) : bool :=
  let n := Ascii.N_of_ascii c in ((48 <=? n) && (n <=? 57))%N.

Fixpoint all_digits (s : string) : bool :=
  match s with
  | EmptyString => true
  | String c s' => is_digit c && all_digits s'
  end.

End Js.
Import Js.

(** ** The generated import map: importPerpsMarketProxy.ts *)

Inductive PerpsMarketProxyModule : Type :=
| PerpsMarketProxy420Main
| PerpsMarketProxy84531Competition.

(** [chainId] is a JavaScript number holding an integer; the template
    literal prints it in plain decimal (for magnitudes of 10^21 and more
    JavaScript switches to exponent notation, which matches neither case
    label either). [preset = None] is the omitted argument, replaced by the
    default ['main']. The [switch] compares the key with each label in turn. *)
Definition importPerpsMarketProxy (chainId : Z) (preset : option string)
  : result PerpsMarketProxyModule :=
  let preset := default "main" preset in
  let key := pretty chainId +:+ "-" +:+ preset in
  if decide (key = "420-main") then
    Ok PerpsMarketProxy420Main
  else if decide (key = "84531-competition") then
    Ok PerpsMarketProxy84531Competition
  else
    Err (Error ("Unsupported chain " +:+ pretty chainId +:+ " for PerpsMarketProxy")).

(** ** Fixed-point decimals: the [Wei] values of [@synthetixio/wei] *)

Module Wei.

(** Modelled from the spec: the [Wei] class is not part of the sources. A
    fixed-point decimal is a scaled integer [bn] with [p] implied decimal
    places; [wei] applied to a [BigNumber] keeps the integer as the scaled
    representation, with 18 implied decimal places. *)
Record t : Type := mk { bn : Z; p : nat }.

Definition WEI_PRECISION : nat := 18.

Definition wei (x : Z) : t := {| bn := x; p := WEI_PRECISION |}.

(** The decimal value a [Wei] stands for. *)
Definition toQ (w : t) : Q :=
  (inject_Z (bn w) / inject_Z (10 ^ Z.of_nat (p w)))%Q.

(** Modelled from the spec: [w.lt(other)] with [other] a [BigNumber], read
    as a scaled integer at the precision of [w]. *)
Definition lt (w : t) (other : Z) : bool := (bn w <? bn (wei other))%Z.

End Wei.

(** [constants.MaxUint256] of ethers. *)
Definition MaxUint256 : Z := 2 ^ 256 - 1.

(** ** Schemas *)

Definition z_boolean (v : JsValue) : result bool :=
  match v with
  | JsBoolean b => Ok b
  | _ => Err ZodError
  end.

Definition z_string (v : JsValue) : result string :=
  match v with
  | JsString s => Ok s
  | _ => Err ZodError
  end.

Definition z_string_startsWith (pre : string) (v : JsValue) : result string :=
  s ← z_string v;
  if startsWith s pre then Ok s else Err ZodError.

(** Modelled from the spec: [ZodBigNumber] of [@snx-v3/zod] is not part of
    the sources. It accepts exactly the [BigNumber] values (the scaled
    integers decoded from contract results). *)
Definition ZodBigNumber (v : JsValue) : result Z :=
  match v with
  | JsBigNumber x => Ok x
  | _ => Err ZodError
  end.

(** [ZodBigNumber.transform((x) => wei(x))]. *)
Definition ZodBigNumber_wei (v : JsValue) : result Wei.t :=
  x ← ZodBigNumber v; mret (Wei.wei x).

Record CollateralConfiguration : Type := {
  depositingEnabled : bool;
  issuanceRatioD18 : Wei.t;
  liquidationRatioD18 : Wei.t;
  liquidationRewardD18 : Wei.t;
  oracleNodeId : string;
  tokenAddress : string;
  minDelegationD18 : Wei.t
}.

Definition CollateralConfigurationSchema_parse (x : JsObject)
  : result CollateralConfiguration :=
  depositingEnabled ← z_boolean (get x "depositingEnabled");
  issuanceRatioD18 ← ZodBigNumber_wei (get x "issuanceRatioD18");
  liquidationRatioD18 ← ZodBigNumber_wei (get x "liquidationRatioD18");
  liquidationRewardD18 ← ZodBigNumber_wei (get x "liquidationRewardD18");
  oracleNodeId ← z_string (get x "oracleNodeId");
  tokenAddress ← z_string_startsWith "0x" (get x "tokenAddress");
  minDelegationD18 ← ZodBigNumber_wei (get x "minDelegationD18");
  mret {| depositingEnabled := depositingEnabled;
          issuanceRatioD18 := issuanceRatioD18;
          liquidationRatioD18 := liquidationRatioD18;
          liquidationRewardD18 := liquidationRewardD18;
          oracleNodeId := oracleNodeId;
          tokenAddress := tokenAddress;
          minDelegationD18 := minDelegationD18 |}.

(** The keys [CollateralConfigurationSchema] declares. *)
Definition configKeys : list string :=
  ["depositingEnabled"; "issuanceRatioD18"; "liquidationRatioD18";
   "liquidationRewardD18"; "oracleNodeId"; "tokenAddress"; "minDelegationD18"].

(** The record built by the join of [loadCollateralTypes]. [price],
    [symbol] and [displaySymbol] are read from arrays by index, so each may
    be [undefined] ([None]) at run time. *)
Record CollateralType : Type := {
  ct_depositingEnabled : bool;
  ct_issuanceRatioD18 : Wei.t;
  ct_liquidationRatioD18 : Wei.t;
  ct_liquidationRewardD18 : Wei.t;
  ct_minDelegationD18 : Wei.t;
  ct_oracleNodeId : string;
  ct_tokenAddress : string;
  price : option Wei.t;
  symbol : option string;
  displaySymbol : option string
}.

(** The configuration fields of a joined record. *)
Definition ct_config (x : CollateralType) : CollateralConfiguration :=
  {| depositingEnabled := ct_depositingEnabled x;
     issuanceRatioD18 := ct_issuanceRatioD18 x;
     liquidationRatioD18 := ct_liquidationRatioD18 x;
     liquidationRewardD18 := ct_liquidationRewardD18 x;
     oracleNodeId := ct_oracleNodeId x;
     tokenAddress := ct_tokenAddress x;
     minDelegationD18 := ct_minDelegationD18 x |}.

Definition SymbolSchema_parse : JsValue → result string := z_string.
Definition PriceSchema_parse : JsValue → result Wei.t := ZodBigNumber_wei.

(** ** Contract handles *)

(** The part of an ethers [Interface] the loaders use. Hex-encoded byte
    strings are [string]s. *)
Record Interface : Type := {
  encodeFunctionData : string → list JsValue → result string;
  decodeFunctionResult : string → string → result (list JsValue)
}.

Record Call : Type := { target : string; callData : string }.

Record AggregateResult : Type := { blockNumber : Z; returnData : list string }.

Record Multicall3Type : Type := {
  aggregate : list Call → result AggregateResult
}.

Record CoreProxyType : Type := {
  interface : Interface;
  getCollateralConfigurations : bool → result (list JsObject);
  multicall : list string → result (list string)
}.

(** ** The loaders *)

Section Loaders.

(** [new utils.Interface(['function symbol() view returns (string)'])]. *)
Variable ERC20Interface : Interface.

(** The two callbacks of [loadSymbols]: the call built for a token, and
    the decoding of one returned item. *)
Definition symbolCall (tokenConfig : CollateralConfiguration) : result Call :=
  data ← encodeFunctionData ERC20Interface "symbol" [];
  mret {| target := tokenAddress tokenConfig; callData := data |}.

Definition decodeSymbol (bytes : string) : result string :=
  decoded ← decodeFunctionResult ERC20Interface "symbol" bytes;
  SymbolSchema_parse (at0 decoded).

Definition loadSymbols (Multicall3 : Multicall3Type)
    (tokenConfigs : list CollateralConfiguration) : result (list string) :=
  calls ← map_throwing symbolCall tokenConfigs;
  multicallResult ← aggregate Multicall3 calls;
  map_throwing decodeSymbol (returnData multicallResult).

(** The two callbacks of [loadPrices]. *)
Definition priceCall (CoreProxy : CoreProxyType) (x : CollateralConfiguration)
  : result string :=
  encodeFunctionData (interface CoreProxy) "getCollateralPrice"
    [JsString (tokenAddress x)].

Definition decodePrice (CoreProxy : CoreProxyType) (bytes : string)
  : result Wei.t :=
  decoded ← decodeFunctionResult (interface CoreProxy) "getCollateralPrice" bytes;
  PriceSchema_parse (at0 decoded).

Definition loadPrices (CoreProxy : CoreProxyType)
    (tokenConfigs : list CollateralConfiguration) : result (list Wei.t) :=
  calls ← map_throwing (priceCall CoreProxy) tokenConfigs;
  multicallResult ← multicall CoreProxy calls;
  map_throwing (decodePrice CoreProxy) multicallResult.

(** The final [tokenConfigs.map((config, i) => ...)] of
    [loadCollateralTypes]. *)
Definition loadCollateralTypes_join (tokenConfigs : list CollateralConfiguration)
    (symbols : list string) (prices : list Wei.t) : list CollateralType :=
  map_index (λ config i,
      {| ct_depositingEnabled := depositingEnabled config;
         ct_issuanceRatioD18 := issuanceRatioD18 config;
         ct_liquidationRatioD18 := liquidationRatioD18 config;
         ct_liquidationRewardD18 := liquidationRewardD18 config;
         ct_minDelegationD18 := minDelegationD18 config;
         ct_oracleNodeId := oracleNodeId config;
         ct_tokenAddress := tokenAddress config;
         price := prices !! i;
         symbol := symbols !! i;
         displaySymbol :=
           if decide (symbols !! i = Some "WETH") then Some "ETH"
           else symbols !! i |})
    tokenConfigs.

Definition loadCollateralTypes (CoreProxy : CoreProxyType)
    (Multicall3 : Multicall3Type) : result (list CollateralType) :=
  let hideDisabled := false in
  tokenConfigsRaw ← getCollateralConfigurations CoreProxy hideDisabled;
  tokenConfigs ← map_throwing CollateralConfigurationSchema_parse tokenConfigsRaw;
  '(symbols, prices) ← Promise_all2
      (loadSymbols Multicall3 tokenConfigs)
      (loadPrices CoreProxy tokenConfigs);
  mret (loadCollateralTypes_join tokenConfigs symbols prices).

(** The callback of [collateralTypes.filter] in [useCollateralTypes]. *)
Definition delegationOn (x : CollateralType) : bool :=
  if bool_decide (symbol x = Some "sUSD") || bool_decide (symbol x = Some "snxUSD")
  then false
  else Wei.lt (ct_minDelegationD18 x) MaxUint256.

(** The part of the [queryFn] of [useCollateralTypes] after the load. *)
Definition selectCollateralTypes (includeDelegationOff : bool)
    (collateralTypes : list CollateralType) : list CollateralType :=
  if includeDelegationOff then collateralTypes
  else List.filter delegationOn collateralTypes.

(** The [queryFn] of [useCollateralTypes]. A contract handle that is not
    there yet is [None]; so is the omitted argument [includeDelegationOff],
    whose default is [false]. *)
Definition useCollateralTypes (CoreProxy : option CoreProxyType)
    (Multicall3 : option Multicall3Type) (includeDelegationOff : option bool)
  : result (list CollateralType) :=
  let includeDelegationOff := default false includeDelegationOff in
  match CoreProxy, Multicall3 with
  | Some CoreProxy, Some Multicall3 =>
      collateralTypes ← loadCollateralTypes CoreProxy Multicall3;
      mret (selectCollateralTypes includeDelegationOff collateralTypes)
  | _, _ => Err (Error "Query should not be enabled when contracts missing")
  end.

End Loaders.

(** The [enabled] option of the query of [useCollateralTypes]:
    [Boolean(CoreProxy && Multicall3)]. *)
Definition useCollateralTypes_enabled (CoreProxy : option CoreProxyType)
    (Multicall3 : option Multicall3Type) : bool :=
  match CoreProxy with
  | Some _ => match Multicall3 with Some _ => true | None => false end
  | None => false
  end.

Section Selector.

(** [String.prototype.toLowerCase], a built-in of the language: any function
    on strings. *)
Variable toLowerCase : string → string.

(** The test of the [find] callback of [useCollateralType]. *)
Definition symbolMatches (collateralSymbol : option string)
    (collateral : CollateralType) : bool :=
  String.eqb (toLowerCase (template (symbol collateral)))
             (toLowerCase (template collateralSymbol)).

(** The [data] of [useCollateralType]: [collateralTypes] is the [data] of
    the [useCollateralTypes()] query ([None] when it is [undefined]),
    [collateralSymbol] the optional argument. *)
Definition useCollateralType (collateralTypes : option (list CollateralType))
    (collateralSymbol : option string) : option CollateralType :=
  match collateralTypes with
  | None => None
  | Some collateralTypes =>
      if (length collateralTypes =? 0)%nat then None
      else if negb (truthy collateralSymbol) then collateralTypes !! 0%nat
      else List.find (symbolMatches collateralSymbol) collateralTypes
  end.

End Selector.

(** ** A small deployment, used to run the definitions

    Three collateral types: WETH, the misconfigured sUSD, and SNX with
    delegation switched off. The stand-in interfaces use the symbol itself
    as the encoded return data of [symbol()] and print prices in decimal. *)

Module Demo.

Definition rawConfig (enabled : JsValue) (address : string) (minDelegation : Z)
  : JsObject :=
  list_to_map
    [("depositingEnabled", enabled);
     ("issuanceRatioD18", JsBigNumber 4000000000000000000);
     ("liquidationRatioD18", JsBigNumber 1500000000000000000);
     ("liquidationRewardD18", JsBigNumber 1000000000000000000);
     ("oracleNodeId", JsString "0xnode");
     ("tokenAddress", JsString address);
     ("minDelegationD18", JsBigNumber minDelegation)].

Definition tokenConfigsRaw : list JsObject :=
  [rawConfig (JsBoolean true) "0x01" 100;
   rawConfig (JsBoolean true) "0x02" 100;
   rawConfig (JsBoolean false) "0x03" MaxUint256].

(** A record whose [depositingEnabled] is not a boolean. *)
Definition tokenConfigsRaw_invalid : list JsObject :=
  [rawConfig (JsBoolean true) "0x01" 100;
   rawConfig (JsNumber 1) "0x02" 100].

Definition config (enabled : bool) (address : string) (minDelegation : Z)
  : CollateralConfiguration :=
  {| depositingEnabled := enabled;
     issuanceRatioD18 := Wei.wei 4000000000000000000;
     liquidationRatioD18 := Wei.wei 1500000000000000000;
     liquidationRewardD18 := Wei.wei 1000000000000000000;
     oracleNodeId := "0xnode";
     tokenAddress := address;
     minDelegationD18 := Wei.wei minDelegation |}.

Definition tokenConfigs : list CollateralConfiguration :=
  [config true "0x01" 100; config true "0x02" 100; config false "0x03" MaxUint256].

Definition collateral (c : CollateralConfiguration) (s d : string)
  : CollateralType :=
  {| ct_depositingEnabled := depositingEnabled c;
     ct_issuanceRatioD18 := issuanceRatioD18 c;
     ct_liquidationRatioD18 := liquidationRatioD18 c;
     ct_liquidationRewardD18 := liquidationRewardD18 c;
     ct_minDelegationD18 := minDelegationD18 c;
     ct_oracleNodeId := oracleNodeId c;
     ct_tokenAddress := tokenAddress c;
     price := Some (Wei.wei 4000000000000000000);
     symbol := Some s;
     displaySymbol := Some d |}.

Definition weth : CollateralType := collateral (config true "0x01" 100) "WETH" "ETH".
Definition susd : CollateralType := collateral (config true "0x02" 100) "sUSD" "sUSD".
Definition snx : CollateralType :=
  collateral (config false "0x03" MaxUint256) "SNX" "SNX".

Definition collateralTypes : list CollateralType := [weth; susd; snx].

Definition symbolOf (address : string) : string :=
  if String.eqb address "0x01" then "WETH"
  else if String.eqb address "0x02" then "sUSD"
  else if String.eqb address "0x03" then "SNX"
  else "0x".

Definition decodeString (name bytes : string) : result (list JsValue) :=
  if String.eqb bytes "0x" then Err (CallException "call revert exception")
  else Ok [JsString bytes].

Definition ERC20Interface : Interface :=
  {| encodeFunctionData := λ _ _, Ok "0x95d89b41";
     decodeFunctionResult := decodeString |}.

Definition Multicall3 : Multicall3Type :=
  {| aggregate := λ calls,
       Ok {| blockNumber := 1;
             returnData := (λ c, symbolOf (target c)) <$> calls |} |}.

Definition decodeUint (name bytes : string) : result (list JsValue) :=
  if String.eqb bytes "0x" then Err (CallException "call revert exception")
  else Ok [JsBigNumber (Z.of_nat (String.length bytes) * 10 ^ 18)].

Definition CoreProxyInterface : Interface :=
  {| encodeFunctionData := λ _ args,
       match args with
       | [JsString address] => Ok address
       | _ => Err (Error "types/values length mismatch")
       end;
     decodeFunctionResult := decodeUint |}.

Definition CoreProxy : CoreProxyType :=
  {| interface := CoreProxyInterface;
     getCollateralConfigurations := λ _, Ok tokenConfigsRaw;
     multicall := λ calls, Ok calls |}.

(** The same deployment with one invalid configuration record. *)
Definition CoreProxy_invalid : CoreProxyType :=
  {| interface := CoreProxyInterface;
     getCollateralConfigurations := λ _, Ok tokenConfigsRaw_invalid;
     multicall := λ calls, Ok calls |}.

(** A multicall whose second result does not decode. *)
Definition Multicall3_broken : Multicall3Type :=
  {| aggregate := λ _,
       Ok {| blockNumber := 1; returnData := ["WETH"; "0x"; "SNX"] |} |}.

(** A core contract whose second price result does not decode. *)
Definition CoreProxy_broken : CoreProxyType :=
  {| interface := CoreProxyInterface;
     getCollateralConfigurations := λ _, Ok tokenConfigsRaw;
     multicall := λ _, Ok ["0x01"; "0x"; "0x03"] |}.

(** A multicall that answers with a single item, whatever the calls. *)
Definition Multicall3_short : Multicall3Type :=
  {| aggregate := λ _, Ok {| blockNumber := 1; returnData := ["WETH"] |} |}.

End Demo.

(** * Properties *)

(** ** Decimal printing of chain ids *)

Lemma pretty_N_char_digit x : is_digit (pretty_N_char x) = true.
Proof. unfold pretty_N_char. by repeat case_match. Qed.

Lemma pretty_N_go_digits x s :
  all_digits s = true → all_digits (pretty_N_go x s) = true.
Proof.
  revert s. induction (N.lt_wf_0 x) as [x _ IH]; intros s Hs.
  destruct (decide (x = 0%N)) as [->|Hx].
  - by rewrite pretty_N_go_0.
  - rewrite pretty_N_go_step by lia. apply IH.
    + apply N.div_lt; lia.
    + cbn [all_digits]. by rewrite pretty_N_char_digit, Hs.
Qed.

Lemma pretty_Z_digits (z : Z) : 0 ≤ z → all_digits (pretty z) = true.
Proof.
  destruct z as [|x|x]; intros Hz; [done| |lia].
  change (pretty (Z.pos x)) with (pretty_N_go (N.pos x) "").
  by apply pretty_N_go_digits.
Qed.

(** A run of digits followed by a dash determines both sides of the dash. *)
Lemma digits_dash_inj ds ds' p p' :
  all_digits ds = true → all_digits ds' = true →
  ds +:+ "-" +:+ p = ds' +:+ "-" +:+ p' → ds = ds' ∧ p = p'.
Proof.
  revert ds'. induction ds as [|c ds IH]; intros [|c' ds'] Hd Hd' Heq;
    cbn in Heq, Hd, Hd'.
  - by simplify_eq.
  - apply andb_prop in Hd' as [Hc' _]. by simplify_eq.
  - apply andb_prop in Hd as [Hc _]. by simplify_eq.
  - apply andb_prop in Hd as [_ Hd]. apply andb_prop in Hd' as [_ Hd'].
    injection Heq as -> Heq. destruct (IH ds' Hd Hd' Heq) as [-> ->]. done.
Qed.

Lemma key_inv (chainId : Z) (preset ds q : string) :
  all_digits ds = true → ds ≠ "" →
  pretty chainId +:+ "-" +:+ preset = ds +:+ "-" +:+ q →
  pretty chainId = ds ∧ preset = q.
Proof.
  intros Hd Hne Heq. destruct (decide (0 ≤ chainId)) as [Hc|Hc].
  - apply digits_dash_inj in Heq; auto using pretty_Z_digits.
  - exfalso. destruct chainId as [|x|x]; [lia..|].
    change (pretty (Z.neg x)) with ("-" +:+ pretty x) in Heq.
    destruct ds as [|c s]; [done|]. cbn in Heq, Hd.
    apply andb_prop in Hd as [Hc' _]. by simplify_eq.
Qed.

Lemma key_eq (chainId n : Z) (preset q : string) :
  0 ≤ n → pretty n ≠ "" →
  pretty chainId +:+ "-" +:+ preset = pretty n +:+ "-" +:+ q ↔
  chainId = n ∧ preset = q.
Proof.
  intros Hn Hne. split; [|by intros [-> ->]].
  intros [Hp ->]%key_inv; auto using pretty_Z_digits.
  split; [|done]. by apply (inj pretty).
Qed.

(** ** The import map *)

(** C3. For every pair of a chain id and a preset, [importPerpsMarketProxy]
    resolves to the 420 binding exactly for (420, 'main'), to the 84531
    competition binding exactly for (84531, 'competition'), and throws the
    "Unsupported chain" error for every other pair. *)
Theorem importPerpsMarketProxy_lookup (chainId : Z) (preset : string) :
  importPerpsMarketProxy chainId (Some preset) =
    if decide (chainId = 420 ∧ preset = "main") then
      Ok PerpsMarketProxy420Main
    else if decide (chainId = 84531 ∧ preset = "competition") then
      Ok PerpsMarketProxy84531Competition
    else Err (Error ("Unsupported chain " +:+ pretty chainId
                       +:+ " for PerpsMarketProxy")).
Proof.
  unfold importPerpsMarketProxy, default, from_option, id.
  change "420-main" with (pretty 420 +:+ "-" +:+ "main").
  change "84531-competition" with (pretty 84531 +:+ "-" +:+ "competition").
  destruct (decide (_ +:+ _ = pretty 420 +:+ _)) as [H1|H1];
    rewrite key_eq in H1 by (lia || by vm_compute).
  { by rewrite decide_True. }
  destruct (decide (chainId = 420 ∧ _)) as [?|_]; [done|].
  destruct (decide (_ +:+ _ = pretty 84531 +:+ _)) as [H2|H2];
    rewrite key_eq in H2 by (lia || by vm_compute).
  { by rewrite decide_True. }
  by destruct (decide (chainId = 84531 ∧ _)).
Qed.

(** C10. Omitting the preset is the same as passing 'main', for every chain
    id; so chain 420 without a preset resolves to the 420 main binding. *)
Theorem importPerpsMarketProxy_default_preset (chainId : Z) :
  importPerpsMarketProxy chainId None = importPerpsMarketProxy chainId (Some "main")
  ∧ importPerpsMarketProxy 420 None = Ok PerpsMarketProxy420Main.
Proof. split; [reflexivity | by vm_compute]. Qed.

(** ** The join of configurations, symbols and prices *)

Section map_index.
Context {A B : Type} (f : A → nat → B).

Lemma map_index_from_length i l : length (map_index_from f i l) = length l.
Proof. revert i. induction l as [|x l IH]; intros i; cbn; [done|]. by rewrite IH. Qed.

Lemma map_index_from_lookup i l k :
  map_index_from f i l !! k = (λ x, f x (i + k)%nat) <$> l !! k.
Proof.
  revert i k. induction l as [|x l IH]; intros i [|k]; cbn; try done.
  - by rewrite Nat.add_0_r.
  - rewrite IH. by replace (S i + k)%nat with (i + S k)%nat by lia.
Qed.

Lemma map_index_length l : length (map_index f l) = length l.
Proof. apply map_index_from_length. Qed.

Lemma map_index_lookup l k : map_index f l !! k = (λ x, f x k) <$> l !! k.
Proof. apply map_index_from_lookup. Qed.
End map_index.

Lemma loadCollateralTypes_join_length tokenConfigs symbols prices :
  length (loadCollateralTypes_join tokenConfigs symbols prices) = length tokenConfigs.
Proof. apply map_index_length. Qed.

(** What the join stores at index [i], whatever the lengths. *)
Lemma loadCollateralTypes_join_lookup tokenConfigs symbols prices i ct :
  loadCollateralTypes_join tokenConfigs symbols prices !! i = Some ct ↔
  ∃ config, tokenConfigs !! i = Some config
    ∧ ct_config ct = config
    ∧ price ct = prices !! i
    ∧ symbol ct = symbols !! i
    ∧ displaySymbol ct =
        if decide (symbols !! i = Some "WETH") then Some "ETH" else symbols !! i.
Proof.
  unfold loadCollateralTypes_join. rewrite map_index_lookup.
  destruct (tokenConfigs !! i) as [config|]; cbn; split.
  - intros [= <-]. exists config. by destruct config.
  - intros (config' & [= <-] & Hc & Hp & Hs & Hd). f_equal.
    destruct ct, config; cbn in *. unfold ct_config in Hc; cbn in Hc.
    simplify_eq. congruence.
  - done.
  - by intros (? & ? & _).
Qed.

(** C1. With as many symbols and prices as configurations, the join has one
    record per configuration, in the same order, and the record at index [i]
    carries the configuration at [i] unchanged, the symbol at [i] and the
    price at [i]. *)
Theorem loadCollateralTypes_join_zip
    (tokenConfigs : list CollateralConfiguration)
    (symbols : list string) (prices : list Wei.t) :
  length symbols = length tokenConfigs →
  length prices = length tokenConfigs →
  let joined := loadCollateralTypes_join tokenConfigs symbols prices in
  length joined = length tokenConfigs
  ∧ ct_config <$> joined = tokenConfigs
  ∧ ∀ i config, tokenConfigs !! i = Some config →
      ∃ ct s pr, joined !! i = Some ct
        ∧ symbols !! i = Some s ∧ prices !! i = Some pr
        ∧ ct_config ct = config ∧ symbol ct = Some s ∧ price ct = Some pr.
Proof.
  intros Hs Hp joined. split; [apply loadCollateralTypes_join_length|].
  assert (∀ i config, tokenConfigs !! i = Some config →
      ∃ ct s pr, joined !! i = Some ct
        ∧ symbols !! i = Some s ∧ prices !! i = Some pr
        ∧ ct_config ct = config ∧ symbol ct = Some s ∧ price ct = Some pr)
    as Hidx.
  { intros i config Hi.
    pose proof (lookup_lt_Some _ _ _ Hi) as Hlt.
    destruct (lookup_lt_is_Some_2 symbols i) as [s Hsi]; [lia|].
    destruct (lookup_lt_is_Some_2 prices i) as [pr Hpi]; [lia|].
    destruct (lookup_lt_is_Some_2 joined i) as [ct Hct].
    { unfold joined. rewrite loadCollateralTypes_join_length. lia. }
    exists ct, s, pr.
    destruct (proj1 (loadCollateralTypes_join_lookup _ _ _ _ _) Hct)
      as (config' & Hi' & Hc & Hpr & Hsy & _).
    rewrite Hi in Hi'. injection Hi' as <-.
    by rewrite Hpr, Hsy. }
  split; [|done].
  apply list_eq. intros i. rewrite list_lookup_fmap.
  destruct (tokenConfigs !! i) as [config|] eqn:Hi.
  - destruct (Hidx i config Hi) as (ct & _ & _ & -> & _ & _ & <- & _). done.
  - apply lookup_ge_None in Hi.
    rewrite (proj2 (lookup_ge_None joined i)); [done|].
    unfold joined. rewrite loadCollateralTypes_join_length. lia.
Qed.

(** C6. Whatever the symbol list, the record at index [i] keeps the symbol
    read at [i]; its display symbol is 'ETH' when that symbol is exactly
    'WETH' and the symbol itself otherwise. *)
Theorem loadCollateralTypes_join_displaySymbol
    (tokenConfigs : list CollateralConfiguration)
    (symbols : list string) (prices : list Wei.t) (i : nat) (ct : CollateralType) :
  loadCollateralTypes_join tokenConfigs symbols prices !! i = Some ct →
  symbol ct = symbols !! i
  ∧ (symbol ct = Some "WETH" → displaySymbol ct = Some "ETH")
  ∧ (symbol ct ≠ Some "WETH" → displaySymbol ct = symbol ct).
Proof.
  intros (config & _ & _ & _ & Hs & Hd)%loadCollateralTypes_join_lookup.
  rewrite Hd, Hs. split; [done|]. case_decide; split; intros; congruence.
Qed.

(** ** Exceptions abort the whole fetch *)

Lemma is_Err_not_Ok {A} (r : result A) : is_Err r → ¬ is_Ok r.
Proof. intros [e ->] [v ?]. discriminate. Qed.

Lemma bind_Ok {A B} (m : result A) (f : A → result B) y :
  m ≫= f = Ok y ↔ ∃ x, m = Ok x ∧ f x = Ok y.
Proof.
  destruct m as [x|e]; cbn; split.
  - eauto.
  - by intros (? & [= <-] & ?).
  - done.
  - by intros (? & ? & _).
Qed.

Lemma bind_Err_l {A B} (m : result A) (f : A → result B) :
  is_Err m → is_Err (m ≫= f).
Proof. intros [e ->]. by exists e. Qed.

Lemma bind_Err_r {A B} (m : result A) (f : A → result B) x :
  m = Ok x → is_Err (f x) → is_Err (m ≫= f).
Proof. by intros ->. Qed.

Lemma Promise_all2_Err {A B} (a : result A) (b : result B) :
  is_Err a ∨ is_Err b → is_Err (Promise_all2 a b).
Proof.
  intros [[e ->]|[e ->]]; [by exists e|].
  destruct a as [x|e']; [by exists e | by exists e'].
Qed.

Lemma Promise_all2_Ok {A B} (a : result A) (b : result B) x y :
  Promise_all2 a b = Ok (x, y) ↔ a = Ok x ∧ b = Ok y.
Proof.
  destruct a, b; cbn; (split; [intros [= ]|intros [[= ] [= ]]]); by subst.
Qed.

Section map_throwing.
Context {A B : Type} (f : A → result B).

Lemma map_throwing_Ok l k :
  map_throwing f l = Ok k ↔ Forall2 (λ x y, f x = Ok y) l k.
Proof.
  revert k. induction l as [|x l IH]; intros k; cbn.
  - split; [intros [= <-]; constructor | by inversion 1].
  - rewrite bind_Ok. split.
    + intros (y & Hy & (ys & Hys & [= <-])%bind_Ok).
      constructor; [done|]. by apply IH.
    + inversion 1 as [|? y ? ys Hy Hys]; subst.
      exists y. split; [done|]. apply bind_Ok. exists ys. split; [|done].
      by apply IH.
Qed.

(** One failing element makes the whole map fail. *)
Lemma map_throwing_Err l :
  Exists (λ x, is_Err (f x)) l → is_Err (map_throwing f l).
Proof.
  induction 1 as [x l Hx|x l _ IH]; cbn.
  - by apply bind_Err_l.
  - destruct (f x) as [y|e]; cbn; [|by exists e].
    by apply bind_Err_l.
Qed.

Lemma map_throwing_length l k : map_throwing f l = Ok k → length k = length l.
Proof. intros H%map_throwing_Ok. symmetry. by eapply Forall2_length. Qed.
End map_throwing.

Section fetch.
Context (ERC20Interface : Interface).
Context (CoreProxy : CoreProxyType) (Multicall3 : Multicall3Type).

Lemma loadSymbols_Err tokenConfigs calls multicallResult :
  map_throwing (symbolCall ERC20Interface) tokenConfigs = Ok calls →
  aggregate Multicall3 calls = Ok multicallResult →
  Exists (λ bytes, is_Err (decodeSymbol ERC20Interface bytes))
    (returnData multicallResult) →
  is_Err (loadSymbols ERC20Interface Multicall3 tokenConfigs).
Proof.
  intros Hcalls Hagg Hbad. unfold loadSymbols.
  eapply bind_Err_r; [done|]. eapply bind_Err_r; [done|].
  by apply map_throwing_Err.
Qed.

Lemma loadPrices_Err tokenConfigs calls multicallResult :
  map_throwing (priceCall CoreProxy) tokenConfigs = Ok calls →
  multicall CoreProxy calls = Ok multicallResult →
  Exists (λ bytes, is_Err (decodePrice CoreProxy bytes)) multicallResult →
  is_Err (loadPrices CoreProxy tokenConfigs).
Proof.
  intros Hcalls Hres Hbad. unfold loadPrices.
  eapply bind_Err_r; [done|]. eapply bind_Err_r; [done|].
  by apply map_throwing_Err.
Qed.

Lemma loadCollateralTypes_Err_config tokenConfigsRaw :
  getCollateralConfigurations CoreProxy false = Ok tokenConfigsRaw →
  Exists (λ x, is_Err (CollateralConfigurationSchema_parse x)) tokenConfigsRaw →
  is_Err (loadCollateralTypes ERC20Interface CoreProxy Multicall3).
Proof.
  intros Hraw Hbad. unfold loadCollateralTypes.
  eapply bind_Err_r; [done|]. by apply bind_Err_l, map_throwing_Err.
Qed.

Lemma loadCollateralTypes_Err_batch tokenConfigsRaw tokenConfigs :
  getCollateralConfigurations CoreProxy false = Ok tokenConfigsRaw →
  map_throwing CollateralConfigurationSchema_parse tokenConfigsRaw = Ok tokenConfigs →
  is_Err (loadSymbols ERC20Interface Multicall3 tokenConfigs)
    ∨ is_Err (loadPrices CoreProxy tokenConfigs) →
  is_Err (loadCollateralTypes ERC20Interface CoreProxy Multicall3).
Proof.
  intros Hraw Hcfg Hbad. unfold loadCollateralTypes.
  eapply bind_Err_r; [done|]. eapply bind_Err_r; [done|].
  by apply bind_Err_l, Promise_all2_Err.
Qed.

Lemma useCollateralTypes_Err includeDelegationOff :
  is_Err (loadCollateralTypes ERC20Interface CoreProxy Multicall3) →
  is_Err (useCollateralTypes ERC20Interface (Some CoreProxy) (Some Multicall3)
            includeDelegationOff).
Proof. intros H. unfold useCollateralTypes. by apply bind_Err_l. Qed.

Lemma useCollateralTypes_Ok includeDelegationOff collateralTypes :
  loadCollateralTypes ERC20Interface CoreProxy Multicall3 = Ok collateralTypes →
  useCollateralTypes ERC20Interface (Some CoreProxy) (Some Multicall3)
      includeDelegationOff
  = Ok (selectCollateralTypes (default false includeDelegationOff) collateralTypes).
Proof. intros H. unfold useCollateralTypes. by rewrite H. Qed.

(** C7. Once the configurations are fetched, an invalid configuration
    record, or a single symbol or price item that fails to decode, makes
    both the load and the query function throw: the result is an error, and
    no list of records, partial or not, is returned. *)
Theorem loadCollateralTypes_all_or_nothing (tokenConfigsRaw : list JsObject) :
  let fails :=
    is_Err (loadCollateralTypes ERC20Interface CoreProxy Multicall3)
    ∧ ∀ includeDelegationOff,
        is_Err (useCollateralTypes ERC20Interface (Some CoreProxy)
                  (Some Multicall3) includeDelegationOff)
        ∧ ¬ is_Ok (useCollateralTypes ERC20Interface (Some CoreProxy)
                     (Some Multicall3) includeDelegationOff) in
  getCollateralConfigurations CoreProxy false = Ok tokenConfigsRaw →
  (Exists (λ x, is_Err (CollateralConfigurationSchema_parse x)) tokenConfigsRaw →
   fails)
  ∧ ∀ tokenConfigs,
      map_throwing CollateralConfigurationSchema_parse tokenConfigsRaw
        = Ok tokenConfigs →
      (∀ calls multicallResult,
         map_throwing (symbolCall ERC20Interface) tokenConfigs = Ok calls →
         aggregate Multicall3 calls = Ok multicallResult →
         Exists (λ bytes, is_Err (decodeSymbol ERC20Interface bytes))
           (returnData multicallResult) →
         fails)
      ∧ (∀ calls multicallResult,
           map_throwing (priceCall CoreProxy) tokenConfigs = Ok calls →
           multicall CoreProxy calls = Ok multicallResult →
           Exists (λ bytes, is_Err (decodePrice CoreProxy bytes)) multicallResult →
           fails).
Proof.
  intros fails Hraw.
  assert (is_Err (loadCollateralTypes ERC20Interface CoreProxy Multicall3) → fails)
    as Hfails.
  { intros Hload. split; [done|]. intros flag.
    pose proof (useCollateralTypes_Err flag Hload) as Huse.
    split; [done|]. by apply is_Err_not_Ok. }
  split; [|intros tokenConfigs Hcfg; split].
  - intros Hbad. eapply Hfails, loadCollateralTypes_Err_config; done.
  - intros calls res Hcalls Hagg Hbad.
    eapply Hfails, loadCollateralTypes_Err_batch; [done..|].
    left. by eapply loadSymbols_Err.
  - intros calls res Hcalls Hres Hbad.
    eapply Hfails, loadCollateralTypes_Err_batch; [done..|].
    right. by eapply loadPrices_Err.
Qed.

(** C9. When every returned price item decodes to a scaled integer,
    [loadPrices] returns one value per item, in order; the value for the
    decoded integer [z] is [wei z], the decimal [z / 10^18]. *)
Theorem loadPrices_fixed_point (tokenConfigs : list CollateralConfiguration)
    (calls multicallResult : list string) (decoded : list Z) :
  map_throwing (priceCall CoreProxy) tokenConfigs = Ok calls →
  multicall CoreProxy calls = Ok multicallResult →
  Forall2 (λ bytes z, ∃ result,
      decodeFunctionResult (interface CoreProxy) "getCollateralPrice" bytes
        = Ok result ∧ at0 result = JsBigNumber z)
    multicallResult decoded →
  ∃ prices,
    loadPrices CoreProxy tokenConfigs = Ok prices
    ∧ prices = Wei.wei <$> decoded
    ∧ ∀ i z, decoded !! i = Some z →
        ∃ w, prices !! i = Some w
          ∧ (Wei.toQ w == inject_Z z / inject_Z (10 ^ 18))%Q.
Proof.
  intros Hcalls Hres Hdec. exists (Wei.wei <$> decoded). split; [|split].
  - unfold loadPrices. rewrite Hcalls; cbn. rewrite Hres; cbn.
    apply map_throwing_Ok. apply Forall2_fmap_r.
    eapply Forall2_impl; [exact Hdec|].
    intros bytes z (result & Hresult & Hz); cbn.
    unfold decodePrice. rewrite Hresult; cbn.
    unfold PriceSchema_parse, ZodBigNumber_wei. by rewrite Hz.
  - done.
  - intros i z Hi. exists (Wei.wei z). split.
    + by rewrite list_lookup_fmap, Hi.
    + reflexivity.
Qed.

(** The filter callback keeps exactly the records that are neither of the
    two excluded symbols and whose minimum delegation is below the maximum. *)
Lemma delegationOn_true (x : CollateralType) :
  delegationOn x = true ↔
  symbol x ≠ Some "sUSD" ∧ symbol x ≠ Some "snxUSD"
  ∧ Wei.bn (ct_minDelegationD18 x) < MaxUint256.
Proof.
  unfold delegationOn, Wei.lt. cbn [Wei.wei Wei.bn].
  rewrite <- Z.ltb_lt.
  do 2 case_bool_decide; cbn; intuition congruence.
Qed.

Lemma selectCollateralTypes_default (collateralTypes : list CollateralType) x :
  x ∈ selectCollateralTypes false collateralTypes ↔
  x ∈ collateralTypes ∧ delegationOn x = true.
Proof.
  unfold selectCollateralTypes. by rewrite !list_elem_of_In, filter_In.
Qed.

(** C2. By default (flag omitted or false) the query function returns no
    record whose minimum delegation is [MaxUint256]; with the flag set it
    returns the loaded list itself. *)
Theorem useCollateralTypes_delegation_off (collateralTypes : list CollateralType) :
  loadCollateralTypes ERC20Interface CoreProxy Multicall3 = Ok collateralTypes →
  (∀ includeDelegationOff,
     includeDelegationOff = None ∨ includeDelegationOff = Some false →
     ∃ kept,
       useCollateralTypes ERC20Interface (Some CoreProxy) (Some Multicall3)
         includeDelegationOff = Ok kept
       ∧ ∀ x, x ∈ kept →
           x ∈ collateralTypes ∧ Wei.bn (ct_minDelegationD18 x) ≠ MaxUint256)
  ∧ useCollateralTypes ERC20Interface (Some CoreProxy) (Some Multicall3)
      (Some true) = Ok collateralTypes.
Proof.
  intros Hload. split; [|by rewrite (useCollateralTypes_Ok _ _ Hload)].
  intros flag Hflag. eexists. split; [by apply useCollateralTypes_Ok|].
  assert (default false flag = false) as -> by (by destruct Hflag as [->| ->]).
  intros x [Hx (_ & _ & Hlt)%delegationOn_true]%selectCollateralTypes_default.
  split; [done|lia].
Qed.

(** C8. By default (flag omitted or false) the query function returns no
    record whose symbol is exactly 'sUSD' or 'snxUSD', whatever its minimum
    delegation; with the flag set every loaded record is returned, these
    two symbols included. *)
Theorem useCollateralTypes_excluded_symbols (collateralTypes : list CollateralType) :
  loadCollateralTypes ERC20Interface CoreProxy Multicall3 = Ok collateralTypes →
  (∀ includeDelegationOff,
     includeDelegationOff = None ∨ includeDelegationOff = Some false →
     ∃ kept,
       useCollateralTypes ERC20Interface (Some CoreProxy) (Some Multicall3)
         includeDelegationOff = Ok kept
       ∧ ∀ x, x ∈ kept →
           x ∈ collateralTypes
           ∧ symbol x ≠ Some "sUSD" ∧ symbol x ≠ Some "snxUSD")
  ∧ ∃ all,
      useCollateralTypes ERC20Interface (Some CoreProxy) (Some Multicall3)
        (Some true) = Ok all
      ∧ ∀ x, x ∈ collateralTypes → x ∈ all.
Proof.
  intros Hload. split.
  - intros flag Hflag. eexists. split; [by apply useCollateralTypes_Ok|].
    assert (default false flag = false) as -> by (by destruct Hflag as [->| ->]).
    intros x [Hx (? & ? & _)%delegationOn_true]%selectCollateralTypes_default.
    done.
  - exists collateralTypes. by rewrite (useCollateralTypes_Ok _ _ Hload).
Qed.

End fetch.

(** ** The single-record selector *)

Lemma truthy_Some s : s ≠ "" → truthy (Some s) = true.
Proof.
  intros Hs. cbn. destruct (String.eqb_spec s ""); [done|reflexivity].
Qed.

Lemma symbolMatches_true (toLowerCase : string → string) s c :
  symbolMatches toLowerCase (Some s) c = true ↔
  toLowerCase (template (symbol c)) = toLowerCase s.
Proof. unfold symbolMatches. cbn [template]. apply String.eqb_eq. Qed.

Lemma symbolMatches_false (toLowerCase : string → string) s c :
  symbolMatches toLowerCase (Some s) c = false ↔
  toLowerCase (template (symbol c)) ≠ toLowerCase s.
Proof. unfold symbolMatches. cbn [template]. apply String.eqb_neq. Qed.

Section find.
Context {A : Type} (f : A → bool).

Lemma find_Some_first l x :
  List.find f l = Some x ↔
  ∃ l1 l2, l = (l1 ++ x :: l2)%list ∧ Forall (λ y, f y = false) l1 ∧ f x = true.
Proof.
  induction l as [|y l IH]; cbn.
  - split; [done|]. by intros ([|??] & ? & ? & _).
  - destruct (f y) eqn:Hy.
    + split.
      * intros [= <-]. by exists [], l.
      * intros ([|z l1] & l2 & [= -> ->] & Hl1 & Hx); [done|].
        apply Forall_cons in Hl1 as [Hz _]. congruence.
    + rewrite IH. split.
      * intros (l1 & l2 & -> & Hl1 & Hx). exists (y :: l1), l2.
        split; [done|]. split; [by constructor|done].
      * intros ([|z l1] & l2 & [= -> ->] & Hl1 & Hx); [congruence|].
        apply Forall_cons in Hl1 as [_ Hl1]. by exists l1, l2.
Qed.

Lemma find_None_all l : List.find f l = None ↔ Forall (λ y, f y = false) l.
Proof.
  induction l as [|y l IH]; cbn; [by split; [constructor|]|].
  destruct (f y) eqn:Hy.
  - split; [done|]. intros [Hy' _]%Forall_cons. congruence.
  - rewrite IH. split; [by constructor|]. by intros [_ ?]%Forall_cons.
Qed.
End find.

(** With a non-empty symbol the selector is the search for the first
    case-insensitive match. *)
Lemma useCollateralType_find (toLowerCase : string → string)
    (collateralTypes : list CollateralType) s :
  s ≠ "" →
  useCollateralType toLowerCase (Some collateralTypes) (Some s)
  = List.find (symbolMatches toLowerCase (Some s)) collateralTypes.
Proof.
  intros Hs. unfold useCollateralType. rewrite truthy_Some by done.
  by destruct collateralTypes.
Qed.

(** C4. The selector compares symbols case-insensitively, that is, after
    [toLowerCase] on both sides, whatever that built-in maps a string to: a
    record it returns for a given symbol is in the collection and has the
    same lower-cased symbol as the input, a record is found whenever one
    matches, and two inputs with the same lower-cased form select the same
    record. Without an input symbol (omitted, or the empty string, which
    the code treats alike) it returns the first record of a non-empty
    collection. On an empty collection it returns no record. *)
Theorem useCollateralType_selector (toLowerCase : string → string)
    (collateralTypes : list CollateralType)
    (collateralSymbol : option string) :
  (∀ s, s ≠ "" →
     (∀ c, useCollateralType toLowerCase (Some collateralTypes) (Some s) = Some c →
           c ∈ collateralTypes
           ∧ toLowerCase (template (symbol c)) = toLowerCase s)
     ∧ (∀ c, c ∈ collateralTypes →
             toLowerCase (template (symbol c)) = toLowerCase s →
             is_Some (useCollateralType toLowerCase (Some collateralTypes)
                        (Some s)))
     ∧ (∀ s', s' ≠ "" → toLowerCase s' = toLowerCase s →
              useCollateralType toLowerCase (Some collateralTypes) (Some s')
              = useCollateralType toLowerCase (Some collateralTypes) (Some s)))
  ∧ (∀ c rest, collateralTypes = c :: rest →
       collateralSymbol = None ∨ collateralSymbol = Some "" →
       useCollateralType toLowerCase (Some collateralTypes) collateralSymbol
       = Some c)
  ∧ (collateralTypes = [] →
       useCollateralType toLowerCase (Some collateralTypes) collateralSymbol
       = None).
Proof.
  split; [|split].
  - intros s Hs. rewrite useCollateralType_find by done. split; [|split].
    + intros c (l1 & l2 & -> & _ & Hc)%find_Some_first.
      split; [set_solver|]. by apply symbolMatches_true.
    + intros c Hc Hm. destruct (List.find _ _) eqn:Hfind; [done|].
      rewrite find_None_all, Forall_forall in Hfind.
      apply Hfind, symbolMatches_false in Hc. done.
    + intros s' Hs' Hlow. rewrite useCollateralType_find by done.
      unfold symbolMatches. cbn [template]. by rewrite Hlow.
  - by intros c rest -> [-> | ->].
  - by intros ->.
Qed.

(** C5, amended. On a non-empty collection and a non-empty input symbol the
    selector returns the first record whose symbol matches the input
    case-insensitively (equal after [toLowerCase], whatever that built-in
    maps a string to) when there is one, and no record when there is none;
    the first record is the answer by default only without an input symbol. *)
Theorem useCollateralType_first_match_or_none (toLowerCase : string → string)
    (c0 : CollateralType) (rest : list CollateralType) (s : string) :
  s ≠ "" →
  let collateralTypes := c0 :: rest in
  let same c := toLowerCase (template (symbol c)) = toLowerCase s in
  (Exists same collateralTypes →
     ∃ before c after,
       collateralTypes = (before ++ c :: after)%list
       ∧ Forall (λ c', ¬ same c') before ∧ same c
       ∧ useCollateralType toLowerCase (Some collateralTypes) (Some s) = Some c)
  ∧ (Forall (λ c, ¬ same c) collateralTypes →
       useCollateralType toLowerCase (Some collateralTypes) (Some s) = None)
  ∧ useCollateralType toLowerCase (Some collateralTypes) None = Some c0.
Proof.
  intros Hs cts same. rewrite useCollateralType_find by done.
  split; [|split; [|reflexivity]].
  - intros Hex. destruct (List.find _ cts) as [c|] eqn:Hfind.
    + apply find_Some_first in Hfind as (l1 & l2 & Hcts & Hl1 & Hc).
      exists l1, c, l2. split; [done|]. split; [|split; [|done]].
      * eapply Forall_impl; [exact Hl1|]. intros c'. apply symbolMatches_false.
      * by apply symbolMatches_true.
    + exfalso. rewrite find_None_all in Hfind.
      apply Exists_exists in Hex as (c & Hc & Hsame).
      rewrite Forall_forall in Hfind. apply Hfind in Hc.
      by apply symbolMatches_false in Hc.
  - intros Hnone. apply find_None_all.
    eapply Forall_impl; [exact Hnone|]. intros c. apply symbolMatches_false.
Qed.

(** ** The properties on the small deployment *)

Example importPerpsMarketProxy_competition :
  importPerpsMarketProxy 84531 (Some "competition")
  = Ok PerpsMarketProxy84531Competition.
Proof. by vm_compute. Qed.

Example importPerpsMarketProxy_wrong_preset :
  importPerpsMarketProxy 420 (Some "competition")
  = Err (Error "Unsupported chain 420 for PerpsMarketProxy")
  ∧ importPerpsMarketProxy 84531 None
    = Err (Error "Unsupported chain 84531 for PerpsMarketProxy").
Proof. split; by vm_compute. Qed.

Example demo_loadCollateralTypes :
  loadCollateralTypes Demo.ERC20Interface Demo.CoreProxy Demo.Multicall3
  = Ok Demo.collateralTypes.
Proof. by vm_compute. Qed.

Example demo_useCollateralTypes_default :
  useCollateralTypes Demo.ERC20Interface (Some Demo.CoreProxy)
    (Some Demo.Multicall3) None = Ok [Demo.weth].
Proof. by vm_compute. Qed.

Example demo_useCollateralTypes_missing_contract :
  useCollateralTypes Demo.ERC20Interface None (Some Demo.Multicall3) None
  = Err (Error "Query should not be enabled when contracts missing").
Proof. reflexivity. Qed.

Example demo_useCollateralType_case :
  useCollateralType asciiLowerCase (Some Demo.collateralTypes) (Some "Snx") = Some Demo.snx.
Proof. by vm_compute. Qed.

Lemma loadCollateralTypes_join_zip_witness :
  let joined :=
    loadCollateralTypes_join Demo.tokenConfigs ["WETH"; "sUSD"; "SNX"]
      [Wei.wei 1; Wei.wei 2; Wei.wei 3] in
  length joined = 3%nat ∧ ct_config <$> joined = Demo.tokenConfigs.
Proof.
  destruct (loadCollateralTypes_join_zip Demo.tokenConfigs
              ["WETH"; "sUSD"; "SNX"] [Wei.wei 1; Wei.wei 2; Wei.wei 3]
              eq_refl eq_refl) as (Hlen & Hcfg & _).
  split; [exact Hlen | exact Hcfg].
Defined.

Lemma loadCollateralTypes_join_displaySymbol_witness :
  ∃ ct,
    loadCollateralTypes_join Demo.tokenConfigs ["WETH"; "sUSD"; "SNX"]
      [Wei.wei 1; Wei.wei 2; Wei.wei 3] !! 0%nat = Some ct
    ∧ symbol ct = Some "WETH" ∧ displaySymbol ct = Some "ETH".
Proof.
  eexists. split; [reflexivity|].
  destruct (loadCollateralTypes_join_displaySymbol Demo.tokenConfigs
              ["WETH"; "sUSD"; "SNX"] [Wei.wei 1; Wei.wei 2; Wei.wei 3]
              0%nat _ eq_refl) as (Hs & Hweth & _).
  split; [exact Hs | apply Hweth; reflexivity].
Defined.

Lemma loadCollateralTypes_all_or_nothing_witness :
  is_Err (loadCollateralTypes Demo.ERC20Interface Demo.CoreProxy_invalid
            Demo.Multicall3)
  ∧ is_Err (loadCollateralTypes Demo.ERC20Interface Demo.CoreProxy
              Demo.Multicall3_broken)
  ∧ is_Err (loadCollateralTypes Demo.ERC20Interface Demo.CoreProxy_broken
              Demo.Multicall3).
Proof.
  assert (map_throwing CollateralConfigurationSchema_parse Demo.tokenConfigsRaw
          = Ok Demo.tokenConfigs) as Hparse by (vm_compute; reflexivity).
  split; [|split].
  - destruct (loadCollateralTypes_all_or_nothing Demo.ERC20Interface
                Demo.CoreProxy_invalid Demo.Multicall3
                Demo.tokenConfigsRaw_invalid eq_refl) as [Hcfg _].
    apply proj1 in Hcfg; [exact Hcfg|].
    apply Exists_cons_tl, Exists_cons_hd.
    exists ZodError. vm_compute. reflexivity.
  - destruct (loadCollateralTypes_all_or_nothing Demo.ERC20Interface
                Demo.CoreProxy Demo.Multicall3_broken
                Demo.tokenConfigsRaw eq_refl) as [_ Hbatch].
    destruct (Hbatch Demo.tokenConfigs Hparse) as [Hsym _].
    eapply proj1, Hsym; [reflexivity | reflexivity |].
    apply Exists_cons_tl, Exists_cons_hd.
    exists (CallException "call revert exception"). reflexivity.
  - destruct (loadCollateralTypes_all_or_nothing Demo.ERC20Interface
                Demo.CoreProxy_broken Demo.Multicall3
                Demo.tokenConfigsRaw eq_refl) as [_ Hbatch].
    destruct (Hbatch Demo.tokenConfigs Hparse) as [_ Hprice].
    eapply proj1, Hprice; [reflexivity | reflexivity |].
    apply Exists_cons_tl, Exists_cons_hd.
    exists (CallException "call revert exception"). reflexivity.
Defined.

Lemma loadPrices_fixed_point_witness :
  ∃ prices,
    loadPrices Demo.CoreProxy Demo.tokenConfigs = Ok prices
    ∧ prices = Wei.wei <$> [4000000000000000000; 4000000000000000000;
                            4000000000000000000].
Proof.
  assert (Forall2 (λ bytes z, ∃ result,
      decodeFunctionResult (interface Demo.CoreProxy) "getCollateralPrice" bytes
        = Ok result ∧ at0 result = JsBigNumber z)
    ["0x01"; "0x02"; "0x03"]
    [4000000000000000000; 4000000000000000000; 4000000000000000000]) as Hdec
    by (repeat constructor; eexists; (split; reflexivity)).
  destruct (loadPrices_fixed_point Demo.CoreProxy Demo.tokenConfigs
              ["0x01"; "0x02"; "0x03"] ["0x01"; "0x02"; "0x03"]
              [4000000000000000000; 4000000000000000000; 4000000000000000000]
              eq_refl eq_refl Hdec) as (prices & Hload & Hprices & _).
  exists prices. split; [exact Hload | exact Hprices].
Defined.

Lemma useCollateralTypes_delegation_off_witness :
  (∃ kept,
     useCollateralTypes Demo.ERC20Interface (Some Demo.CoreProxy)
       (Some Demo.Multicall3) None = Ok kept
     ∧ ∀ x, x ∈ kept →
         x ∈ Demo.collateralTypes
         ∧ Wei.bn (ct_minDelegationD18 x) ≠ MaxUint256)
  ∧ useCollateralTypes Demo.ERC20Interface (Some Demo.CoreProxy)
      (Some Demo.Multicall3) (Some true) = Ok Demo.collateralTypes.
Proof.
  assert (loadCollateralTypes Demo.ERC20Interface Demo.CoreProxy Demo.Multicall3
          = Ok Demo.collateralTypes) as Hload by (vm_compute; reflexivity).
  destruct (useCollateralTypes_delegation_off Demo.ERC20Interface
              Demo.CoreProxy Demo.Multicall3 Demo.collateralTypes Hload)
    as [Hoff Hon].
  split; [|exact Hon]. apply Hoff. left. reflexivity.
Defined.

Lemma useCollateralTypes_excluded_symbols_witness :
  (∃ kept,
     useCollateralTypes Demo.ERC20Interface (Some Demo.CoreProxy)
       (Some Demo.Multicall3) (Some false) = Ok kept
     ∧ ∀ x, x ∈ kept →
         x ∈ Demo.collateralTypes
         ∧ symbol x ≠ Some "sUSD" ∧ symbol x ≠ Some "snxUSD")
  ∧ ∃ all,
      useCollateralTypes Demo.ERC20Interface (Some Demo.CoreProxy)
        (Some Demo.Multicall3) (Some true) = Ok all
      ∧ ∀ x, x ∈ Demo.collateralTypes → x ∈ all.
Proof.
  assert (loadCollateralTypes Demo.ERC20Interface Demo.CoreProxy Demo.Multicall3
          = Ok Demo.collateralTypes) as Hload by (vm_compute; reflexivity).
  destruct (useCollateralTypes_excluded_symbols Demo.ERC20Interface
              Demo.CoreProxy Demo.Multicall3 Demo.collateralTypes Hload)
    as [Hoff Hon].
  split; [|exact Hon]. apply Hoff. right. reflexivity.
Defined.

Lemma useCollateralType_selector_witness :
  useCollateralType asciiLowerCase (Some Demo.collateralTypes) (Some "weth")
    = useCollateralType asciiLowerCase (Some Demo.collateralTypes) (Some "WETH")
  ∧ is_Some (useCollateralType asciiLowerCase (Some Demo.collateralTypes)
               (Some "WETH"))
  ∧ useCollateralType asciiLowerCase (Some Demo.collateralTypes) None
    = Some Demo.weth
  ∧ useCollateralType asciiLowerCase (Some []) (Some "WETH") = None.
Proof.
  destruct (useCollateralType_selector asciiLowerCase Demo.collateralTypes None)
    as (Hmatch & Hfirst & _).
  assert ("WETH" ≠ "") as Hne by discriminate.
  assert ("weth" ≠ "") as Hne' by discriminate.
  destruct (Hmatch "WETH" Hne) as (_ & Hfound & Hcase).
  split; [apply (Hcase "weth" Hne'); reflexivity|].
  split; [apply (Hfound Demo.weth); [left|reflexivity]|].
  split.
  { apply (Hfirst Demo.weth [Demo.susd; Demo.snx]); [reflexivity|].
    left; reflexivity. }
  destruct (useCollateralType_selector asciiLowerCase [] (Some "WETH"))
    as (_ & _ & Hempty).
  apply Hempty. reflexivity.
Defined.

Lemma useCollateralType_first_match_or_none_witness :
  (∃ before c after,
     [Demo.weth; Demo.susd; Demo.snx] = (before ++ c :: after)%list
     ∧ Forall (λ c', asciiLowerCase (template (symbol c')) ≠ asciiLowerCase "snx") before
     ∧ asciiLowerCase (template (symbol c)) = asciiLowerCase "snx"
     ∧ useCollateralType asciiLowerCase (Some [Demo.weth; Demo.susd; Demo.snx]) (Some "snx")
       = Some c)
  ∧ useCollateralType asciiLowerCase (Some [Demo.weth; Demo.susd; Demo.snx]) (Some "DAI") = None.
Proof.
  assert ("snx" ≠ "") as Hsnx by discriminate.
  assert ("DAI" ≠ "") as Hdai by discriminate.
  split.
  - destruct (useCollateralType_first_match_or_none asciiLowerCase Demo.weth
                [Demo.susd; Demo.snx] "snx" Hsnx) as (Hfound & _ & _).
    apply Hfound. apply Exists_cons_tl, Exists_cons_tl, Exists_cons_hd.
    reflexivity.
  - destruct (useCollateralType_first_match_or_none asciiLowerCase Demo.weth
                [Demo.susd; Demo.snx] "DAI" Hdai) as (_ & Hnone & _).
    apply Hnone. repeat constructor; discriminate.
Defined.

(** C5 as stated fails: on a non-empty collection where no symbol matches
    the input, the selector returns no record, not the first one. The
    symbols are ASCII, where [toLowerCase] is [asciiLowerCase]. *)
Lemma useCollateralType_no_default_counterexample :
  let collateralTypes := [Demo.weth; Demo.snx] in
  collateralTypes ≠ []
  ∧ Forall (λ c, asciiLowerCase (template (symbol c)) ≠ asciiLowerCase "DAI")
      collateralTypes
  ∧ useCollateralType asciiLowerCase (Some collateralTypes) (Some "DAI") = None
  ∧ useCollateralType asciiLowerCase (Some collateralTypes) (Some "DAI") ≠ Some Demo.weth
  ∧ ¬ is_Some (useCollateralType asciiLowerCase (Some collateralTypes) (Some "DAI")).
Proof.
  cbn zeta. split; [discriminate|]. split; [repeat constructor; discriminate|].
  split; [reflexivity|]. split; [discriminate|]. by intros [c ?].
Qed.

(** * Further properties of the hooks *)

(** ** The configuration schema *)

Lemma get_Some (o : JsObject) k v :
  v ≠ JsUndefined → get o k = v ↔ o !! k = Some v.
Proof.
  intros Hv. unfold get. destruct (o !! k) as [w|]; cbn; split; congruence.
Qed.

Lemma get_None (o : JsObject) k : o !! k = None → get o k = JsUndefined.
Proof. unfold get. by intros ->. Qed.

Lemma get_insert_ne (o : JsObject) k k' v :
  k ≠ k' → get (<[k:=v]> o) k' = get o k'.
Proof. intros Hk. unfold get. by rewrite lookup_insert_ne. Qed.

Lemma z_boolean_Ok v b : z_boolean v = Ok b ↔ v = JsBoolean b.
Proof. destruct v; cbn; split; congruence. Qed.

Lemma z_string_Ok v s : z_string v = Ok s ↔ v = JsString s.
Proof. destruct v; cbn; split; congruence. Qed.

Lemma z_string_startsWith_Ok pre v s :
  z_string_startsWith pre v = Ok s ↔ v = JsString s ∧ startsWith s pre = true.
Proof.
  unfold z_string_startsWith. rewrite bind_Ok. split.
  - intros (s' & ->%z_string_Ok & Hs).
    destruct (startsWith s' pre) eqn:Hpre; by simplify_eq.
  - intros [-> Hpre]. exists s. by rewrite Hpre.
Qed.

Lemma ZodBigNumber_wei_Ok v w :
  ZodBigNumber_wei v = Ok w ↔ ∃ z, v = JsBigNumber z ∧ w = Wei.wei z.
Proof.
  unfold ZodBigNumber_wei. rewrite bind_Ok. split.
  - intros (z & Hz & [= <-]). exists z. by destruct v; cbn in Hz; simplify_eq.
  - intros (z & -> & ->). by exists z.
Qed.

Lemma startsWith_prefix s pre :
  startsWith s pre = true ↔ ∃ rest, s = pre +:+ rest.
Proof.
  revert s. induction pre as [|a pre IH]; intros [|b s]; cbn.
  - split; [by exists ""|done].
  - split; [intros _; by exists (String b s)|done].
  - split; [done|]. by intros (? & ?).
  - rewrite andb_true_iff, IH, Ascii.eqb_eq. split.
    + intros [-> [rest ->]]. by exists rest.
    + intros (rest & [= -> ->]). eauto.
Qed.

(** Every way the schema can fail is a [ZodError]. *)
Lemma CollateralConfigurationSchema_parse_Err x e :
  CollateralConfigurationSchema_parse x = Err e → e = ZodError.
Proof.
  unfold CollateralConfigurationSchema_parse, z_string_startsWith,
    ZodBigNumber_wei, ZodBigNumber, z_boolean, z_string.
  repeat (match goal with
          | |- context [get x ?k] => destruct (get x k); cbn [mbind result_bind mret result_ret]
          | |- context [startsWith ?a ?b] => destruct (startsWith a b); cbn [mbind result_bind mret result_ret]
          end; try congruence).
  discriminate.
Qed.

(** What a successful parse says about the raw record. *)
Lemma CollateralConfigurationSchema_parse_Ok x c :
  CollateralConfigurationSchema_parse x = Ok c ↔
  get x "depositingEnabled" = JsBoolean (depositingEnabled c)
  ∧ (∃ z, get x "issuanceRatioD18" = JsBigNumber z
          ∧ issuanceRatioD18 c = Wei.wei z)
  ∧ (∃ z, get x "liquidationRatioD18" = JsBigNumber z
          ∧ liquidationRatioD18 c = Wei.wei z)
  ∧ (∃ z, get x "liquidationRewardD18" = JsBigNumber z
          ∧ liquidationRewardD18 c = Wei.wei z)
  ∧ get x "oracleNodeId" = JsString (oracleNodeId c)
  ∧ (get x "tokenAddress" = JsString (tokenAddress c)
     ∧ startsWith (tokenAddress c) "0x" = true)
  ∧ (∃ z, get x "minDelegationD18" = JsBigNumber z
          ∧ minDelegationD18 c = Wei.wei z).
Proof.
  split.
  - intros H. unfold CollateralConfigurationSchema_parse in H.
    apply bind_Ok in H as (b & Hb%z_boolean_Ok & H).
    apply bind_Ok in H as (i & (zi & Hi & ->)%ZodBigNumber_wei_Ok & H).
    apply bind_Ok in H as (lr & (zl & Hl & ->)%ZodBigNumber_wei_Ok & H).
    apply bind_Ok in H as (lw & (zw & Hw & ->)%ZodBigNumber_wei_Ok & H).
    apply bind_Ok in H as (o & Ho%z_string_Ok & H).
    apply bind_Ok in H as (a & [Ha Hpre]%z_string_startsWith_Ok & H).
    apply bind_Ok in H as (m & (zm & Hm & ->)%ZodBigNumber_wei_Ok & H).
    injection H as <-. cbn. eauto 20.
  - intros (Hb & (zi & Hi & Hi') & (zl & Hl & Hl') & (zw & Hw & Hw') & Ho
            & [Ha Hpre] & (zm & Hm & Hm')).
    unfold CollateralConfigurationSchema_parse.
    rewrite Hb, Hi, Hl, Hw, Ho, Ha, Hm. cbn.
    unfold z_string_startsWith. cbn. rewrite Hpre. cbn.
    destruct c; cbn in *. by subst.
Qed.

(** X1. Keys the schema does not declare are ignored: adding one to a raw
    record changes neither the outcome nor the parsed configuration. *)
Theorem CollateralConfigurationSchema_parse_strips (x : JsObject) (k : string)
    (v : JsValue) :
  k ∉ configKeys →
  CollateralConfigurationSchema_parse (<[k:=v]> x)
  = CollateralConfigurationSchema_parse x.
Proof.
  intros Hk. unfold CollateralConfigurationSchema_parse.
  rewrite !get_insert_ne; [done|..];
    intros ->; apply Hk; unfold configKeys; set_solver.
Qed.

Lemma CollateralConfigurationSchema_parse_strips_witness :
  CollateralConfigurationSchema_parse
    (<["0":=JsBoolean true]> (Demo.rawConfig (JsBoolean true) "0x01" 100))
  = CollateralConfigurationSchema_parse
      (Demo.rawConfig (JsBoolean true) "0x01" 100).
Proof.
  apply CollateralConfigurationSchema_parse_strips.
  apply (bool_decide_unpack _). vm_compute. exact I.
Defined.

(** X2. Each declared key is required: a raw record that lacks one of them
    is rejected with a [ZodError]. *)
Theorem CollateralConfigurationSchema_parse_required (x : JsObject) (k : string) :
  k ∈ configKeys → x !! k = None →
  CollateralConfigurationSchema_parse x = Err ZodError.
Proof.
  intros Hk Hx. apply get_None in Hx.
  destruct (CollateralConfigurationSchema_parse x) as [c|e] eqn:Hparse.
  - exfalso. apply CollateralConfigurationSchema_parse_Ok in Hparse
      as (Hb & (zi & Hi & _) & (zl & Hl & _) & (zw & Hw & _) & Ho
          & [Ha _] & (zm & Hm & _)).
    unfold configKeys in Hk.
    repeat (apply elem_of_cons in Hk as [->|Hk]; [congruence|]).
    by apply elem_of_nil in Hk.
  - f_equal. by eapply CollateralConfigurationSchema_parse_Err.
Qed.

Lemma CollateralConfigurationSchema_parse_required_witness :
  CollateralConfigurationSchema_parse
    (delete "oracleNodeId" (Demo.rawConfig (JsBoolean true) "0x01" 100))
  = Err ZodError.
Proof.
  apply (CollateralConfigurationSchema_parse_required _ "oracleNodeId").
  - apply (bool_decide_unpack _). vm_compute. exact I.
  - vm_compute. reflexivity.
Defined.

(** X3. A parsed configuration carries the values of the raw record under
    the same keys: the boolean and the two strings unchanged, each D18 field
    as [wei] of the [BigNumber] found there; its token address begins with
    '0x'. *)
Theorem CollateralConfigurationSchema_parse_sound (x : JsObject)
    (c : CollateralConfiguration) :
  CollateralConfigurationSchema_parse x = Ok c →
  x !! "depositingEnabled" = Some (JsBoolean (depositingEnabled c))
  ∧ (∃ z, x !! "issuanceRatioD18" = Some (JsBigNumber z)
          ∧ issuanceRatioD18 c = Wei.wei z)
  ∧ (∃ z, x !! "liquidationRatioD18" = Some (JsBigNumber z)
          ∧ liquidationRatioD18 c = Wei.wei z)
  ∧ (∃ z, x !! "liquidationRewardD18" = Some (JsBigNumber z)
          ∧ liquidationRewardD18 c = Wei.wei z)
  ∧ x !! "oracleNodeId" = Some (JsString (oracleNodeId c))
  ∧ x !! "tokenAddress" = Some (JsString (tokenAddress c))
  ∧ (∃ z, x !! "minDelegationD18" = Some (JsBigNumber z)
          ∧ minDelegationD18 c = Wei.wei z)
  ∧ ∃ rest, tokenAddress c = "0x" +:+ rest.
Proof.
  intros (Hb & (zi & Hi & Hi') & (zl & Hl & Hl') & (zw & Hw & Hw') & Ho
          & [Ha Hpre] & (zm & Hm & Hm'))%CollateralConfigurationSchema_parse_Ok.
  rewrite get_Some in Hb, Hi, Hl, Hw, Ho, Ha, Hm by done.
  apply startsWith_prefix in Hpre. eauto 20.
Qed.

Lemma CollateralConfigurationSchema_parse_sound_witness :
  Demo.rawConfig (JsBoolean true) "0x01" 100 !! "tokenAddress"
  = Some (JsString "0x01")
  ∧ ∃ z, Demo.rawConfig (JsBoolean true) "0x01" 100 !! "minDelegationD18"
         = Some (JsBigNumber z)
         ∧ Wei.wei 100 = Wei.wei z.
Proof.
  assert (CollateralConfigurationSchema_parse
            (Demo.rawConfig (JsBoolean true) "0x01" 100)
          = Ok (Demo.config true "0x01" 100)) as Hparse
    by (vm_compute; reflexivity).
  destruct (CollateralConfigurationSchema_parse_sound _ _ Hparse)
    as (_ & _ & _ & _ & _ & Ha & Hm & _).
  split; [exact Ha | exact Hm].
Defined.

(** X4. A raw record is accepted exactly when it holds a boolean under
    [depositingEnabled], a [BigNumber] under each of the four D18 keys, a
    string under [oracleNodeId] and a string that begins with '0x' under
    [tokenAddress]. *)
Theorem CollateralConfigurationSchema_parse_accepts (x : JsObject) :
  is_Ok (CollateralConfigurationSchema_parse x) ↔
  (∃ b, x !! "depositingEnabled" = Some (JsBoolean b))
  ∧ (∃ z, x !! "issuanceRatioD18" = Some (JsBigNumber z))
  ∧ (∃ z, x !! "liquidationRatioD18" = Some (JsBigNumber z))
  ∧ (∃ z, x !! "liquidationRewardD18" = Some (JsBigNumber z))
  ∧ (∃ s, x !! "oracleNodeId" = Some (JsString s))
  ∧ (∃ rest, x !! "tokenAddress" = Some (JsString ("0x" +:+ rest)))
  ∧ (∃ z, x !! "minDelegationD18" = Some (JsBigNumber z)).
Proof.
  split.
  - intros [c (Hb & (zi & Hi & _) & (zl & Hl & _) & (zw & Hw & _) & Ho
              & [Ha [rest Hpre]%startsWith_prefix] & (zm & Hm & _))
              %CollateralConfigurationSchema_parse_Ok].
    rewrite Hpre in Ha. rewrite get_Some in Hb, Hi, Hl, Hw, Ho, Ha, Hm by done.
    eauto 20.
  - intros ((b & Hb) & (zi & Hi) & (zl & Hl) & (zw & Hw) & (s & Ho)
            & (rest & Ha) & (zm & Hm)).
    exists {| depositingEnabled := b;
              issuanceRatioD18 := Wei.wei zi;
              liquidationRatioD18 := Wei.wei zl;
              liquidationRewardD18 := Wei.wei zw;
              oracleNodeId := s;
              tokenAddress := "0x" +:+ rest;
              minDelegationD18 := Wei.wei zm |}.
    apply CollateralConfigurationSchema_parse_Ok. cbn.
    rewrite <- get_Some in Hb, Hi, Hl, Hw, Ho, Ha, Hm by done.
    split; [done|]. split; [eauto|]. split; [eauto|]. split; [eauto|].
    split; [done|]. split; [|eauto]. split; [done|].
    apply startsWith_prefix. by exists rest.
Qed.

Lemma CollateralConfigurationSchema_parse_accepts_witness :
  is_Ok (CollateralConfigurationSchema_parse
           (Demo.rawConfig (JsBoolean true) "0x01" 100)).
Proof.
  apply CollateralConfigurationSchema_parse_accepts.
  split; [by exists true|]. split; [by eexists|]. split; [by eexists|].
  split; [by eexists|]. split; [by eexists|]. split; [by exists "01"|].
  by eexists.
Defined.

(** ** The loaders *)

Lemma map_throwing_Err_first {A B} (f : A → result B) l1 x l2 ys e :
  map_throwing f l1 = Ok ys → f x = Err e →
  map_throwing f (l1 ++ x :: l2) = Err e.
Proof.
  revert ys. induction l1 as [|y l1 IH]; intros ys; cbn.
  - by intros _ ->.
  - intros (y' & -> & (ys' & Hys' & _)%bind_Ok)%bind_Ok He; cbn.
    by rewrite (IH _ Hys' He).
Qed.

Lemma loadCollateralTypes_Ok_inv E CoreProxy Multicall3 l :
  loadCollateralTypes E CoreProxy Multicall3 = Ok l ↔
  ∃ tokenConfigsRaw tokenConfigs symbols prices,
    getCollateralConfigurations CoreProxy false = Ok tokenConfigsRaw
    ∧ map_throwing CollateralConfigurationSchema_parse tokenConfigsRaw
      = Ok tokenConfigs
    ∧ loadSymbols E Multicall3 tokenConfigs = Ok symbols
    ∧ loadPrices CoreProxy tokenConfigs = Ok prices
    ∧ l = loadCollateralTypes_join tokenConfigs symbols prices.
Proof.
  unfold loadCollateralTypes. rewrite bind_Ok. split.
  - intros (raw & Hraw & (cfgs & Hcfgs & ([symbols prices] & Hall & [= <-])
                            %bind_Ok)%bind_Ok).
    apply Promise_all2_Ok in Hall as [Hs Hp]. eauto 10.
  - intros (raw & cfgs & symbols & prices & Hraw & Hcfgs & Hs & Hp & ->).
    exists raw. split; [done|]. rewrite Hcfgs; cbn. by rewrite Hs, Hp.
Qed.

(** X5. When the [symbol()] selector encodes to [data], [loadSymbols]
    submits to [aggregate] exactly one call per token configuration, in
    order, each addressed to the token of that configuration and carrying
    [data], and decodes what that one aggregated call returns. *)
Theorem loadSymbols_calls (ERC20Interface : Interface)
    (Multicall3 : Multicall3Type)
    (tokenConfigs : list CollateralConfiguration) (data : string) :
  encodeFunctionData ERC20Interface "symbol" [] = Ok data →
  loadSymbols ERC20Interface Multicall3 tokenConfigs
  = (multicallResult ← aggregate Multicall3
        ((λ tokenConfig,
            {| target := tokenAddress tokenConfig; callData := data |})
         <$> tokenConfigs);
     map_throwing (decodeSymbol ERC20Interface) (returnData multicallResult)).
Proof.
  intros Hdata. unfold loadSymbols.
  assert (map_throwing (symbolCall ERC20Interface) tokenConfigs
          = Ok ((λ tokenConfig,
                   {| target := tokenAddress tokenConfig; callData := data |})
                <$> tokenConfigs)) as ->; [|done].
  induction tokenConfigs as [|x l IH]; [done|].
  cbn [map_throwing]. rewrite IH. unfold symbolCall. by rewrite Hdata.
Qed.

Lemma loadSymbols_calls_witness :
  loadSymbols Demo.ERC20Interface Demo.Multicall3 Demo.tokenConfigs
  = (multicallResult ← aggregate Demo.Multicall3
        [ {| target := "0x01"; callData := "0x95d89b41" |};
          {| target := "0x02"; callData := "0x95d89b41" |};
          {| target := "0x03"; callData := "0x95d89b41" |} ];
     map_throwing (decodeSymbol Demo.ERC20Interface) (returnData multicallResult)).
Proof.
  exact (loadSymbols_calls Demo.ERC20Interface Demo.Multicall3
           Demo.tokenConfigs "0x95d89b41" eq_refl).
Defined.

(** X6. The symbols [loadSymbols] returns follow the returned data, not the
    configurations: there is one symbol per returned item, and the symbol at
    index [i] is the string decoded from the item at [i]. *)
Theorem loadSymbols_sound (ERC20Interface : Interface)
    (Multicall3 : Multicall3Type)
    (tokenConfigs : list CollateralConfiguration) (symbols : list string) :
  loadSymbols ERC20Interface Multicall3 tokenConfigs = Ok symbols →
  ∃ calls multicallResult,
    map_throwing (symbolCall ERC20Interface) tokenConfigs = Ok calls
    ∧ aggregate Multicall3 calls = Ok multicallResult
    ∧ length symbols = length (returnData multicallResult)
    ∧ ∀ i s, symbols !! i = Some s →
        ∃ bytes decoded,
          returnData multicallResult !! i = Some bytes
          ∧ decodeFunctionResult ERC20Interface "symbol" bytes = Ok decoded
          ∧ at0 decoded = JsString s.
Proof.
  unfold loadSymbols.
  intros (calls & Hcalls & (res & Hres & Hdec%map_throwing_Ok)%bind_Ok)%bind_Ok.
  exists calls, res. split; [done|]. split; [done|].
  split; [symmetry; by eapply Forall2_length|].
  intros i s Hs.
  destruct (Forall2_lookup_r _ _ _ _ _ Hdec Hs) as (bytes & Hbytes & Hd).
  unfold decodeSymbol in Hd.
  apply bind_Ok in Hd as (decoded & Hdecoded & Hstr%z_string_Ok).
  eauto 10.
Qed.

Lemma loadSymbols_sound_witness :
  ∃ calls multicallResult,
    map_throwing (symbolCall Demo.ERC20Interface) Demo.tokenConfigs = Ok calls
    ∧ aggregate Demo.Multicall3_short calls = Ok multicallResult
    ∧ length ["WETH"] = length (returnData multicallResult).
Proof.
  assert (loadSymbols Demo.ERC20Interface Demo.Multicall3_short
            Demo.tokenConfigs = Ok ["WETH"]) as Hload by reflexivity.
  destruct (loadSymbols_sound _ _ _ _ Hload)
    as (calls & res & Hcalls & Hres & Hlen & _).
  exists calls, res. split; [exact Hcalls|]. split; [exact Hres | exact Hlen].
Defined.

(** X7. When a returned item does not decode, [loadSymbols] throws the
    error of the first such item. *)
Theorem loadSymbols_first_error (ERC20Interface : Interface)
    (Multicall3 : Multicall3Type)
    (tokenConfigs : list CollateralConfiguration) (calls : list Call)
    (multicallResult : AggregateResult)
    (good : list string) (bad : string) (rest : list string)
    (symbols : list string) (e : JsError) :
  map_throwing (symbolCall ERC20Interface) tokenConfigs = Ok calls →
  aggregate Multicall3 calls = Ok multicallResult →
  returnData multicallResult = (good ++ bad :: rest)%list →
  map_throwing (decodeSymbol ERC20Interface) good = Ok symbols →
  decodeSymbol ERC20Interface bad = Err e →
  loadSymbols ERC20Interface Multicall3 tokenConfigs = Err e.
Proof.
  intros Hcalls Hres Hdata Hgood Hbad. unfold loadSymbols.
  rewrite Hcalls; cbn. rewrite Hres; cbn. rewrite Hdata.
  by eapply map_throwing_Err_first.
Qed.

Lemma loadSymbols_first_error_witness :
  loadSymbols Demo.ERC20Interface Demo.Multicall3_broken Demo.tokenConfigs
  = Err (CallException "call revert exception").
Proof.
  eapply (loadSymbols_first_error Demo.ERC20Interface Demo.Multicall3_broken
            Demo.tokenConfigs _ _ ["WETH"] "0x" ["SNX"] ["WETH"]);
    reflexivity.
Defined.

(** ** The load as a whole *)

(** X8. Whatever the two batches return, a successful load has exactly one
    record per configuration the contract returned, in the contract's
    order, each carrying its parsed configuration. *)
Theorem loadCollateralTypes_shape (ERC20Interface : Interface)
    (CoreProxy : CoreProxyType) (Multicall3 : Multicall3Type)
    (collateralTypes : list CollateralType) :
  loadCollateralTypes ERC20Interface CoreProxy Multicall3 = Ok collateralTypes →
  ∃ tokenConfigsRaw,
    getCollateralConfigurations CoreProxy false = Ok tokenConfigsRaw
    ∧ length collateralTypes = length tokenConfigsRaw
    ∧ Forall2 (λ x ct, CollateralConfigurationSchema_parse x = Ok (ct_config ct))
        tokenConfigsRaw collateralTypes.
Proof.
  intros (raw & cfgs & symbols & prices & Hraw & Hcfgs & _ & _ & ->)
    %loadCollateralTypes_Ok_inv.
  exists raw. split; [done|].
  apply map_throwing_Ok in Hcfgs.
  assert (ct_config <$> loadCollateralTypes_join cfgs symbols prices = cfgs)
    as Hcfg.
  { apply list_eq. intros i. rewrite list_lookup_fmap.
    unfold loadCollateralTypes_join. rewrite map_index_lookup.
    by destruct (cfgs !! i) as [[]|]. }
  split.
  - rewrite loadCollateralTypes_join_length. symmetry. by eapply Forall2_length.
  - rewrite <- Hcfg in Hcfgs at 1. by apply Forall2_fmap_r in Hcfgs.
Qed.

Lemma loadCollateralTypes_shape_witness :
  ∃ tokenConfigsRaw,
    getCollateralConfigurations Demo.CoreProxy false = Ok tokenConfigsRaw
    ∧ length Demo.collateralTypes = length tokenConfigsRaw.
Proof.
  assert (loadCollateralTypes Demo.ERC20Interface Demo.CoreProxy Demo.Multicall3
          = Ok Demo.collateralTypes) as Hload by (vm_compute; reflexivity).
  destruct (loadCollateralTypes_shape _ _ _ _ Hload) as (raw & Hraw & Hlen & _).
  exists raw. split; [exact Hraw | exact Hlen].
Defined.

(** X9. A batch that comes back short is not an error: a record whose index
    is beyond the returned symbols has neither symbol nor display symbol,
    and one beyond the returned prices has no price. *)
Theorem loadCollateralTypes_join_short
    (tokenConfigs : list CollateralConfiguration)
    (symbols : list string) (prices : list Wei.t) (i : nat) (ct : CollateralType) :
  loadCollateralTypes_join tokenConfigs symbols prices !! i = Some ct →
  (length symbols ≤ i → symbol ct = None ∧ displaySymbol ct = None)%nat
  ∧ (length prices ≤ i → price ct = None)%nat.
Proof.
  intros (config & _ & _ & Hp & Hs & Hd)%loadCollateralTypes_join_lookup.
  split.
  - intros Hi%lookup_ge_None. rewrite Hd, Hs, Hi. by case_decide.
  - intros Hi%lookup_ge_None. by rewrite Hp.
Qed.

Lemma loadCollateralTypes_join_short_witness :
  ∃ l ct,
    loadCollateralTypes Demo.ERC20Interface Demo.CoreProxy Demo.Multicall3_short
    = Ok l
    ∧ l !! 2%nat = Some ct ∧ symbol ct = None ∧ displaySymbol ct = None.
Proof.
  eexists. eexists. split; [vm_compute; reflexivity|].
  split; [reflexivity|].
  refine (proj1 (loadCollateralTypes_join_short Demo.tokenConfigs ["WETH"]
                   [Wei.wei 4000000000000000000; Wei.wei 4000000000000000000;
                    Wei.wei 4000000000000000000] 2%nat _ _) _).
  - reflexivity.
  - cbn. lia.
Defined.

(** X10. No loaded record is displayed as 'WETH': the display symbol is
    'ETH' exactly for the symbols 'WETH' and 'ETH', and is the symbol itself
    in every other case. *)
Theorem loadCollateralTypes_displaySymbol (ERC20Interface : Interface)
    (CoreProxy : CoreProxyType) (Multicall3 : Multicall3Type)
    (collateralTypes : list CollateralType) (ct : CollateralType) :
  loadCollateralTypes ERC20Interface CoreProxy Multicall3 = Ok collateralTypes →
  ct ∈ collateralTypes →
  displaySymbol ct ≠ Some "WETH"
  ∧ (displaySymbol ct = Some "ETH" ↔
     symbol ct = Some "WETH" ∨ symbol ct = Some "ETH").
Proof.
  intros (raw & cfgs & symbols & prices & _ & _ & _ & _ & ->)
    %loadCollateralTypes_Ok_inv [i Hi]%list_elem_of_lookup.
  apply loadCollateralTypes_join_lookup in Hi as (_ & _ & _ & _ & Hs & Hd).
  rewrite Hd, Hs. case_decide as Hw.
  - split; [done|]. split; [by left|done].
  - split; [done|]. split; [by right|]. by intros [|].
Qed.

Lemma loadCollateralTypes_displaySymbol_witness :
  displaySymbol Demo.weth ≠ Some "WETH"
  ∧ (displaySymbol Demo.weth = Some "ETH" ↔
     symbol Demo.weth = Some "WETH" ∨ symbol Demo.weth = Some "ETH").
Proof.
  assert (loadCollateralTypes Demo.ERC20Interface Demo.CoreProxy Demo.Multicall3
          = Ok Demo.collateralTypes) as Hload by (vm_compute; reflexivity).
  apply (loadCollateralTypes_displaySymbol _ _ _ _ Demo.weth Hload).
  apply list_elem_of_In. left. reflexivity.
Defined.

(** X11. Every loaded record has a token address that begins with '0x'. *)
Theorem loadCollateralTypes_tokenAddress (ERC20Interface : Interface)
    (CoreProxy : CoreProxyType) (Multicall3 : Multicall3Type)
    (collateralTypes : list CollateralType) (ct : CollateralType) :
  loadCollateralTypes ERC20Interface CoreProxy Multicall3 = Ok collateralTypes →
  ct ∈ collateralTypes →
  ∃ rest, ct_tokenAddress ct = "0x" +:+ rest.
Proof.
  intros (raw & cfgs & symbols & prices & _ & Hcfgs & _ & _ & ->)
    %loadCollateralTypes_Ok_inv [i Hi]%list_elem_of_lookup.
  apply loadCollateralTypes_join_lookup in Hi as (config & Hi & Hc & _).
  apply map_throwing_Ok in Hcfgs.
  destruct (Forall2_lookup_r _ _ _ _ _ Hcfgs Hi) as (x & _ & Hx).
  apply CollateralConfigurationSchema_parse_Ok in Hx
    as (_ & _ & _ & _ & _ & [_ Hpre] & _).
  apply startsWith_prefix in Hpre. by rewrite <- Hc in Hpre.
Qed.

Lemma loadCollateralTypes_tokenAddress_witness :
  ∃ rest, ct_tokenAddress Demo.snx = "0x" +:+ rest.
Proof.
  assert (loadCollateralTypes Demo.ERC20Interface Demo.CoreProxy Demo.Multicall3
          = Ok Demo.collateralTypes) as Hload by (vm_compute; reflexivity).
  apply (loadCollateralTypes_tokenAddress _ _ _ _ Demo.snx Hload).
  apply list_elem_of_In. right. right. left. reflexivity.
Defined.

(** X12. An invalid configuration record makes the load throw a [ZodError],
    whatever the symbol and price batches would have returned. *)
Theorem loadCollateralTypes_ZodError (ERC20Interface : Interface)
    (CoreProxy : CoreProxyType) (Multicall3 : Multicall3Type)
    (tokenConfigsRaw : list JsObject) :
  getCollateralConfigurations CoreProxy false = Ok tokenConfigsRaw →
  Exists (λ x, is_Err (CollateralConfigurationSchema_parse x)) tokenConfigsRaw →
  loadCollateralTypes ERC20Interface CoreProxy Multicall3 = Err ZodError.
Proof.
  intros Hraw Hbad. unfold loadCollateralTypes. rewrite Hraw; cbn.
  assert (map_throwing CollateralConfigurationSchema_parse tokenConfigsRaw
          = Err ZodError) as ->; [|done].
  clear Hraw. induction Hbad as [x l [e Hx]|x l _ IH]; cbn.
  - rewrite Hx. cbn.
    by rewrite (CollateralConfigurationSchema_parse_Err _ _ Hx).
  - rewrite IH. destruct (CollateralConfigurationSchema_parse x) as [c|e] eqn:Hx;
      cbn; [done|].
    by rewrite (CollateralConfigurationSchema_parse_Err _ _ Hx).
Qed.

Lemma loadCollateralTypes_ZodError_witness :
  loadCollateralTypes Demo.ERC20Interface Demo.CoreProxy_invalid
    Demo.Multicall3_broken = Err ZodError.
Proof.
  apply (loadCollateralTypes_ZodError Demo.ERC20Interface Demo.CoreProxy_invalid
           Demo.Multicall3_broken Demo.tokenConfigsRaw_invalid eq_refl).
  apply Exists_cons_tl, Exists_cons_hd. exists ZodError. vm_compute. reflexivity.
Defined.

(** ** The hooks *)

(** X13. The guard of the query function and the [enabled] option agree:
    when the query is not enabled the function throws the "contracts
    missing" error whatever the flag; when it is enabled both handles are
    there, and the function fails only if the load itself fails. *)
Theorem useCollateralTypes_enabled_guard (ERC20Interface : Interface)
    (CoreProxy : option CoreProxyType) (Multicall3 : option Multicall3Type)
    (includeDelegationOff : option bool) :
  (useCollateralTypes_enabled CoreProxy Multicall3 = false →
   useCollateralTypes ERC20Interface CoreProxy Multicall3 includeDelegationOff
   = Err (Error "Query should not be enabled when contracts missing"))
  ∧ (useCollateralTypes_enabled CoreProxy Multicall3 = true →
     ∃ cp mc, CoreProxy = Some cp ∧ Multicall3 = Some mc
       ∧ (is_Err (useCollateralTypes ERC20Interface CoreProxy Multicall3
                    includeDelegationOff)
          ↔ is_Err (loadCollateralTypes ERC20Interface cp mc))).
Proof.
  destruct CoreProxy as [cp|], Multicall3 as [mc|]; cbn; split; try done.
  intros _. exists cp, mc. split; [done|]. split; [done|].
  unfold useCollateralTypes.
  destruct (loadCollateralTypes ERC20Interface cp mc) as [l|e]; cbn.
  - split; intros [e ?]; discriminate.
  - split; intros _; by exists e.
Qed.

Lemma useCollateralTypes_enabled_guard_witness :
  useCollateralTypes Demo.ERC20Interface (Some Demo.CoreProxy) None (Some true)
  = Err (Error "Query should not be enabled when contracts missing").
Proof.
  apply (proj1 (useCollateralTypes_enabled_guard Demo.ERC20Interface
                  (Some Demo.CoreProxy) None (Some true))).
  reflexivity.
Defined.

Lemma List_filter_decide {A} (f : A → bool) (P : A → Prop)
    `{∀ x, Decision (P x)} (l : list A) :
  (∀ x, f x = true ↔ P x) → List.filter f l = filter P l.
Proof.
  intros Hf. induction l as [|x l IH]; [done|].
  rewrite filter_cons. cbn [List.filter]. rewrite IH.
  destruct (decide (P x)) as [HP|HP].
  - by rewrite (proj2 (Hf x) HP).
  - destruct (f x) eqn:Hx; [|done]. by apply Hf in Hx.
Qed.

(** X14. By default the query function returns exactly the loaded list
    with the records removed whose symbol is 'sUSD' or 'snxUSD' or whose
    minimum delegation is not below [MaxUint256]: every other record stays,
    as often as it was loaded and in the order in which it was loaded. *)
Theorem useCollateralTypes_default_exact (ERC20Interface : Interface)
    (CoreProxy : CoreProxyType) (Multicall3 : Multicall3Type)
    (collateralTypes : list CollateralType) :
  loadCollateralTypes ERC20Interface CoreProxy Multicall3 = Ok collateralTypes →
  useCollateralTypes ERC20Interface (Some CoreProxy) (Some Multicall3) None
  = Ok (filter (λ x, symbol x ≠ Some "sUSD" ∧ symbol x ≠ Some "snxUSD"
                     ∧ Wei.bn (ct_minDelegationD18 x) < MaxUint256)
          collateralTypes).
Proof.
  intros Hload. rewrite (useCollateralTypes_Ok _ _ _ _ _ Hload). cbn.
  f_equal. apply List_filter_decide. intros x. apply delegationOn_true.
Qed.

Lemma useCollateralTypes_default_exact_witness :
  useCollateralTypes Demo.ERC20Interface (Some Demo.CoreProxy)
    (Some Demo.Multicall3) None
  = Ok (filter (λ x, symbol x ≠ Some "sUSD" ∧ symbol x ≠ Some "snxUSD"
                     ∧ Wei.bn (ct_minDelegationD18 x) < MaxUint256)
          Demo.collateralTypes).
Proof.
  assert (loadCollateralTypes Demo.ERC20Interface Demo.CoreProxy Demo.Multicall3
          = Ok Demo.collateralTypes) as Hload by (vm_compute; reflexivity).
  exact (useCollateralTypes_default_exact _ _ _ _ Hload).
Defined.

(** X15. The selector never makes up a record: what it returns is an
    element of the collection it was given, and without a collection it
    returns nothing. *)
Theorem useCollateralType_member (toLowerCase : string → string)
    (collateralTypes : option (list CollateralType))
    (collateralSymbol : option string) (c : CollateralType) :
  useCollateralType toLowerCase collateralTypes collateralSymbol = Some c →
  ∃ l, collateralTypes = Some l ∧ c ∈ l.
Proof.
  destruct collateralTypes as [l|]; [|done]. intros Hc. exists l.
  split; [done|]. unfold useCollateralType in Hc.
  destruct (length l =? 0)%nat; [done|].
  destruct (negb (truthy collateralSymbol)).
  - by eapply list_elem_of_lookup_2.
  - apply find_Some_first in Hc as (l1 & l2 & -> & _). set_solver.
Qed.

Lemma useCollateralType_member_witness :
  ∃ l, Some Demo.collateralTypes = Some l ∧ Demo.snx ∈ l.
Proof.
  apply (useCollateralType_member asciiLowerCase (Some Demo.collateralTypes)
           (Some "snx")).
  reflexivity.
Defined.

(** X16. [useCollateralType] reads the default query, so the record it
    selects is never one the default filter removes: its symbol is neither
    'sUSD' nor 'snxUSD' and its minimum delegation is below [MaxUint256],
    whatever symbol was asked for. *)
Theorem useCollateralType_default_query (toLowerCase : string → string)
    (ERC20Interface : Interface)
    (CoreProxy : CoreProxyType) (Multicall3 : Multicall3Type)
    (kept : list CollateralType) (collateralSymbol : option string)
    (c : CollateralType) :
  useCollateralTypes ERC20Interface (Some CoreProxy) (Some Multicall3) None
  = Ok kept →
  useCollateralType toLowerCase (Some kept) collateralSymbol = Some c →
  symbol c ≠ Some "sUSD" ∧ symbol c ≠ Some "snxUSD"
  ∧ Wei.bn (ct_minDelegationD18 c) < MaxUint256.
Proof.
  unfold useCollateralTypes.
  intros (l & _ & [= <-])%bind_Ok Hc. cbn in Hc.
  assert (c ∈ List.filter delegationOn l) as Hin.
  { unfold useCollateralType in Hc.
    destruct (length _ =? 0)%nat; [done|].
    destruct (negb (truthy collateralSymbol)).
    - by eapply list_elem_of_lookup_2.
    - apply find_Some_first in Hc as (l1 & l2 & -> & _). set_solver. }
  apply list_elem_of_In, filter_In in Hin as [_ Hon].
  by apply delegationOn_true.
Qed.

Lemma useCollateralType_default_query_witness :
  symbol Demo.weth ≠ Some "sUSD" ∧ symbol Demo.weth ≠ Some "snxUSD"
  ∧ Wei.bn (ct_minDelegationD18 Demo.weth) < MaxUint256.
Proof.
  assert (useCollateralTypes Demo.ERC20Interface (Some Demo.CoreProxy)
            (Some Demo.Multicall3) None = Ok [Demo.weth]) as Hquery
    by (vm_compute; reflexivity).
  apply (useCollateralType_default_query asciiLowerCase _ _ _ _ (Some "weth")
           Demo.weth Hquery).
  reflexivity.
Defined.

(** ** The import map without a preset *)

(** X17. With the preset omitted, chain 420 is the only chain for which
    [importPerpsMarketProxy] resolves; chain 84531, which is bound under
    'competition' only, throws like any other chain. *)
Theorem importPerpsMarketProxy_omitted_preset (chainId : Z) :
  is_Ok (importPerpsMarketProxy chainId None) ↔ chainId = 420.
Proof.
  unfold importPerpsMarketProxy, default, from_option.
  change "420-main" with (pretty 420 +:+ "-" +:+ "main").
  change "84531-competition" with (pretty 84531 +:+ "-" +:+ "competition").
  destruct (decide (_ +:+ _ = pretty 420 +:+ _)) as [H1|H1];
    rewrite key_eq in H1 by (lia || by vm_compute).
  { destruct H1 as [-> _]. split; [done|]. by eexists. }
  destruct (decide (_ +:+ _ = pretty 84531 +:+ _)) as [H2|H2];
    rewrite key_eq in H2 by (lia || by vm_compute).
  { by destruct H2 as [_ ?]. }
  split; [by intros [m ?]|]. intros ->. by destruct H1.
Qed.

Lemma importPerpsMarketProxy_omitted_preset_witness :
  is_Ok (importPerpsMarketProxy 420 None)
  ∧ ¬ is_Ok (importPerpsMarketProxy 84531 None).
Proof.
  split.
  - apply importPerpsMarketProxy_omitted_preset. reflexivity.
  - intros H%importPerpsMarketProxy_omitted_preset. discriminate H.
Defined.
